(** * Fake Voice Options: shortcut model, recorder arbiter, fake-state
    synchronizer and hotkey dispatcher of [src/index.tsx].

    The plugin is single-threaded event-driven code over a handful of
    module-level variables.  Every function of the source that reads or
    writes them becomes a function on an explicit [State]; the services
    it consumes (voice-state store, media engine) are an [Env] read at
    each call; every call that leaves the module (engine setters,
    listener registration, [preventDefault], a recorder's stop
    capability) is appended to a chronological [trace]. *)

From Stdlib Require Import Ascii.
From stdpp Require Import base gmap strings list fin_maps.

(** ** JavaScript string helpers

    Strings are sequences of 8-bit characters, and the helpers below
    are the builtins the source calls, read on them: the length is the
    number of characters and case conversion is the one of the ASCII
    letters.  On text made of code units below 128 they are what
    JavaScript computes on its sequences of UTF-16 code units; text
    with other code units ([toUpperCase] of an accented letter, say) is
    outside what the statements about labels cover. *)

Definition upperChar (c : ascii) : ascii :=
  let n := nat_of_ascii c in
  if (97 <=? n)%nat && (n <=? 122)%nat then ascii_of_nat (n - 32) else c.

Definition lowerChar (c : ascii) : ascii :=
  let n := nat_of_ascii c in
  if (65 <=? n)%nat && (n <=? 90)%nat then ascii_of_nat (n + 32) else c.

Fixpoint mapChars (f : ascii → ascii) (s : string) : string :=
  match s with
  | EmptyString => EmptyString
  | String c rest => String (f c) (mapChars f rest)
  end.

Definition toUpperCase : string → string := mapChars upperChar.
Definition toLowerCase : string → string := mapChars lowerChar.

(** [s.slice(n)] for a non-negative [n]: drop the first [n] code units. *)
Fixpoint slice (n : nat) (s : string) : string :=
  match n, s with
  | O, _ => s
  | S _, EmptyString => EmptyString
  | S k, String _ rest => slice k rest
  end.

Definition startsWith (s p : string) : bool := String.prefix p s.

(** [parts.join(sep)] *)
Definition join (sep : string) (parts : list string) : string :=
  String.concat sep parts.

(** JavaScript truthiness of a string: every string but the empty one. *)
Definition truthy (s : string) : bool :=
  match s with EmptyString => false | String _ _ => true end.

(** [a === b] on strings and on booleans. *)
Definition strEq (a b : string) : bool := String.eqb a b.
Definition boolEq (a b : bool) : bool := Bool.eqb a b.

(** ** Shortcut model *)

Record KeybindSetting := mkKeybind {
  key : string;
  code : string;
  ctrl : bool;
  shift : bool;
  alt : bool;
  meta : bool
}.

(** [KeybindValue = KeybindSetting | null] *)
Abbreviation KeybindValue := (option KeybindSetting).

(** The part of the DOM a key event exposes to the plugin: the target
    element with the chain of its ancestors, nearest first. *)
Record Element := mkElement {
  tagName : string;
  instanceofHTMLElement : bool;
  contenteditable : option string
}.

Record EventTarget := mkTarget {
  targetElement : Element;
  targetAncestors : list Element
}.

(** [event_target = None] stands for a target that is no element at all
    ([null], the window, the document). *)
Record KeyboardEvent := mkEvent {
  event_key : string;
  event_code : string;
  event_ctrlKey : bool;
  event_shiftKey : bool;
  event_altKey : bool;
  event_metaKey : bool;
  event_repeat : bool;
  event_defaultPrevented : bool;
  event_target : option EventTarget
}.

Definition MODIFIER_KEYS : gset string :=
  {[ "Shift"; "Control"; "Alt"; "Meta" ]}.

(** The table as a finite map.  The source looks a key up in a plain
    object, which also finds the properties every object inherits from
    [Object.prototype] ([constructor], [toString] and the like, none of
    them a [KeyboardEvent.key] value): the map and the object agree on
    every other key. *)
Definition KEY_LABEL_OVERRIDES : gmap string string :=
  list_to_map
    [ (" ", "Space"); ("Spacebar", "Space"); ("Escape", "Esc");
      ("ArrowUp", "Up"); ("ArrowDown", "Down"); ("ArrowLeft", "Left");
      ("ArrowRight", "Right"); ("PageUp", "Page Up");
      ("PageDown", "Page Down") ].

Definition formatKeyName (key code : string) : string :=
  match KEY_LABEL_OVERRIDES !! key with
  | Some label => label
  | None =>
    let dead := strEq key "Dead" || strEq key "Unidentified" in
    if dead && startsWith code "Key" then toUpperCase (slice 3 code)
    else if dead && startsWith code "Digit" then slice 5 code
    else if dead && startsWith code "Numpad" then "Numpad " +:+ slice 6 code
    else if (String.length key =? 1)%nat then toUpperCase key
    else key
  end.

Section Platform.

(** [IS_MAC] comes from the host's [@utils/constants]. *)
Variable IS_MAC : bool.

Definition formatKeybind (keybind : KeybindValue) : string :=
  match keybind with
  | None => "Not set"
  | Some keybind =>
    let parts : list string := [] in
    let parts := if ctrl keybind then parts ++ ["Ctrl"] else parts in
    let parts := if shift keybind then parts ++ ["Shift"] else parts in
    let parts :=
      if alt keybind then parts ++ [if IS_MAC then "Option" else "Alt"]
      else parts in
    let parts :=
      if meta keybind then parts ++ [if IS_MAC then "Cmd" else "Meta"]
      else parts in
    let parts := parts ++ [formatKeyName (key keybind) (code keybind)] in
    join "+" parts
  end.

End Platform.

Definition keybindFromEvent (event : KeyboardEvent) : KeybindValue :=
  if bool_decide (event_key event ∈ MODIFIER_KEYS) then None
  else Some {| key := event_key event;
               code := event_code event;
               ctrl := event_ctrlKey event;
               shift := event_shiftKey event;
               alt := event_altKey event;
               meta := event_metaKey event |}.

Definition matchesKeybind (event : KeyboardEvent) (keybind : KeybindValue) : bool :=
  match keybind with
  | None => false
  | Some keybind =>
    let keyMatches :=
      if truthy (code keybind) then strEq (event_code event) (code keybind)
      else strEq (event_key event) (key keybind) in
    if negb keyMatches then false
    else boolEq (event_ctrlKey event) (ctrl keybind)
         && boolEq (event_shiftKey event) (shift keybind)
         && boolEq (event_altKey event) (alt keybind)
         && boolEq (event_metaKey event) (meta keybind)
  end.

(** [target.closest("[contenteditable='true']")]: the nearest of the
    element and its ancestors whose attribute is exactly ["true"]. *)
Definition closestContentEditable (target : EventTarget) : option Element :=
  List.find (λ el, bool_decide (contenteditable el = Some "true"))
            (targetElement target :: targetAncestors target).

Definition shouldIgnoreKeybindTarget (target : option EventTarget) : bool :=
  match target with
  | None => false
  | Some target =>
    if negb (instanceofHTMLElement (targetElement target)) then false
    else if closestContentEditable target is Some _ then true
    else
      let tagName := toLowerCase (tagName (targetElement target)) in
      strEq tagName "input" || strEq tagName "textarea" || strEq tagName "select"
  end.

(** ** External services and module state *)

Inductive Channel := Mute | Deafen.

Global Instance Channel_eq_dec : EqDecision Channel.
Proof. solve_decision. Defined.

Record VoiceState := mkVoiceState {
  selfMute : bool;
  selfDeaf : bool
}.

(** A connection of the media engine.  [connection_id] is the identity
    of the object; the two [has_] fields say whether the object carries
    the method, which the optional calls of the source test. *)
Record Connection := mkConnection {
  connection_id : nat;
  context : string;
  has_setSelfMute : bool;
  has_setSelfDeaf : bool
}.

(** What the host's stores answer at the time of a call.
    [currentUserId] is [UserStore?.getCurrentUser?.()?.id];
    [voiceStateStore] is [None] when [getVoiceStateForUser] is missing;
    [mediaEngineConnections] is [None] when the engine or its
    [connections] is missing, and an entry of the collection is [None]
    when it is nullish. *)
Record Env := mkEnv {
  currentUserId : option string;
  voiceStateStore : option (gmap string VoiceState);
  mediaEngineConnections : option (list (option Connection))
}.

(** Identity of a mounted [KeybindRow], that is of its [stopRecording]
    callback. *)
Abbreviation RowId := nat.

Inductive Listener :=
| HandleHotkeys
| HandleKeyDown (row : RowId).

(** Calls that leave the module, and the entry of a synchronizer. *)
Inductive Call :=
| CallSync (channel : Channel) (nextFake : bool)
| CallSetSelfMute (connection : nat) (muted : bool)
| CallSetSelfDeaf (connection : nat) (deafened : bool)
| CallStopRecording (row : RowId)
| CallAddEventListener (listener : Listener)
| CallRemoveEventListener (listener : Listener)
| CallPreventDefault
| CallStopPropagation.

Record Settings := mkSettings {
  fakeMute : bool;
  fakeDeafen : bool;
  fakeMuteHotkey : KeybindValue;
  fakeDeafenHotkey : KeybindValue
}.

(** Component state of one mounted [KeybindRow]: the setting its
    [onHotkeyChange] writes and its [isRecording] state. *)
Record Row := mkRow {
  rowAction : Channel;
  isRecording : bool
}.

Record State := mkState {
  lastSelfMute : option bool;
  lastSelfDeaf : option bool;
  activeKeybindRecorderStop : option RowId;
  isRecordingKeybind : bool;
  hotkeyListenerActive : bool;
  settings : Settings;
  rows : gmap RowId Row;
  nextRowId : RowId;
  pendingRenders : list RowId;
  trace : list Call
}.

Definition initialState : State :=
  {| lastSelfMute := None; lastSelfDeaf := None;
     activeKeybindRecorderStop := None; isRecordingKeybind := false;
     hotkeyListenerActive := false;
     settings := mkSettings false false None None;
     rows := ∅; nextRowId := 0; pendingRenders := []; trace := [] |}.

Definition set_lastSelfMute (v : option bool) (st : State) : State :=
  mkState v (lastSelfDeaf st) (activeKeybindRecorderStop st)
          (isRecordingKeybind st) (hotkeyListenerActive st) (settings st)
          (rows st) (nextRowId st) (pendingRenders st) (trace st).

Definition set_lastSelfDeaf (v : option bool) (st : State) : State :=
  mkState (lastSelfMute st) v (activeKeybindRecorderStop st)
          (isRecordingKeybind st) (hotkeyListenerActive st) (settings st)
          (rows st) (nextRowId st) (pendingRenders st) (trace st).

Definition set_activeKeybindRecorderStop (v : option RowId) (st : State) : State :=
  mkState (lastSelfMute st) (lastSelfDeaf st) v
          (isRecordingKeybind st) (hotkeyListenerActive st) (settings st)
          (rows st) (nextRowId st) (pendingRenders st) (trace st).

Definition set_isRecordingKeybind (v : bool) (st : State) : State :=
  mkState (lastSelfMute st) (lastSelfDeaf st) (activeKeybindRecorderStop st)
          v (hotkeyListenerActive st) (settings st)
          (rows st) (nextRowId st) (pendingRenders st) (trace st).

Definition set_hotkeyListenerActive (v : bool) (st : State) : State :=
  mkState (lastSelfMute st) (lastSelfDeaf st) (activeKeybindRecorderStop st)
          (isRecordingKeybind st) v (settings st)
          (rows st) (nextRowId st) (pendingRenders st) (trace st).

Definition set_settings (v : Settings) (st : State) : State :=
  mkState (lastSelfMute st) (lastSelfDeaf st) (activeKeybindRecorderStop st)
          (isRecordingKeybind st) (hotkeyListenerActive st) v
          (rows st) (nextRowId st) (pendingRenders st) (trace st).

Definition set_rows (v : gmap RowId Row) (st : State) : State :=
  mkState (lastSelfMute st) (lastSelfDeaf st) (activeKeybindRecorderStop st)
          (isRecordingKeybind st) (hotkeyListenerActive st) (settings st)
          v (nextRowId st) (pendingRenders st) (trace st).

Definition set_nextRowId (v : RowId) (st : State) : State :=
  mkState (lastSelfMute st) (lastSelfDeaf st) (activeKeybindRecorderStop st)
          (isRecordingKeybind st) (hotkeyListenerActive st) (settings st)
          (rows st) v (pendingRenders st) (trace st).

Definition set_pendingRenders (v : list RowId) (st : State) : State :=
  mkState (lastSelfMute st) (lastSelfDeaf st) (activeKeybindRecorderStop st)
          (isRecordingKeybind st) (hotkeyListenerActive st) (settings st)
          (rows st) (nextRowId st) v (trace st).

(** Record a call at the end of the trace. *)
Definition emit (c : Call) (st : State) : State :=
  mkState (lastSelfMute st) (lastSelfDeaf st) (activeKeybindRecorderStop st)
          (isRecordingKeybind st) (hotkeyListenerActive st) (settings st)
          (rows st) (nextRowId st) (pendingRenders st) (trace st ++ [c]).

(** ** Fake-state synchronizer *)

Definition getSelfVoiceState (env : Env) : option VoiceState :=
  match currentUserId env, voiceStateStore env with
  | Some currentUserId, Some store =>
    if negb (truthy currentUserId) then None else store !! currentUserId
  | _, _ => None
  end.

(** [connection?.context === "default"] *)
Definition isDefaultContext (connection : option Connection) : bool :=
  match connection with
  | Some c => strEq (context c) "default"
  | None => false
  end.

(** The [for ... of] loop of [getDefaultMediaConnection], entered with
    the current value of [fallbackConnection]. *)
Fixpoint connectionLoop (fallbackConnection : option Connection)
    (connections : list (option Connection)) : option Connection :=
  match connections with
  | [] => fallbackConnection
  | connection :: rest =>
    let fallbackConnection :=
      match fallbackConnection with
      | None => connection
      | Some _ => fallbackConnection
      end in
    if isDefaultContext connection then connection
    else connectionLoop fallbackConnection rest
  end.

Definition getDefaultMediaConnection (env : Env) : option Connection :=
  match mediaEngineConnections env with
  | None => None
  | Some connections => connectionLoop None connections
  end.

Definition setLocalMute (env : Env) (muted : bool) (st : State) : State :=
  match getDefaultMediaConnection env with
  | Some connection =>
    if has_setSelfMute connection
    then emit (CallSetSelfMute (connection_id connection) muted) st
    else st
  | None => st
  end.

Definition setLocalDeaf (env : Env) (deafened : bool) (st : State) : State :=
  match getDefaultMediaConnection env with
  | Some connection =>
    if has_setSelfDeaf connection
    then emit (CallSetSelfDeaf (connection_id connection) deafened) st
    else st
  | None => st
  end.

Definition syncFakeMute (env : Env) (nextFakeMute : bool) (st : State) : State :=
  let st := emit (CallSync Mute nextFakeMute) st in
  let voiceState := getSelfVoiceState env in
  if nextFakeMute then
    let st := set_lastSelfMute (selfMute <$> voiceState) st in
    setLocalMute env false st
  else
    match lastSelfMute st with
    | Some last =>
      let st := setLocalMute env last st in
      set_lastSelfMute None st
    | None =>
      match voiceState with
      | Some voiceState => setLocalMute env (selfMute voiceState) st
      | None => st
      end
    end.

Definition syncFakeDeafen (env : Env) (nextFakeDeafen : bool) (st : State) : State :=
  let st := emit (CallSync Deafen nextFakeDeafen) st in
  let voiceState := getSelfVoiceState env in
  if nextFakeDeafen then
    let st := set_lastSelfDeaf (selfDeaf <$> voiceState) st in
    setLocalDeaf env false st
  else
    match lastSelfDeaf st with
    | Some last =>
      let st := setLocalDeaf env last st in
      set_lastSelfDeaf None st
    | None =>
      match voiceState with
      | Some voiceState => setLocalDeaf env (selfDeaf voiceState) st
      | None => st
      end
    end.

(** The two instances of the synchronizer and what each is
    parameterized by. *)
Definition sync (channel : Channel) : Env → bool → State → State :=
  match channel with Mute => syncFakeMute | Deafen => syncFakeDeafen end.

Definition shadowSlot (channel : Channel) (st : State) : option bool :=
  match channel with Mute => lastSelfMute st | Deafen => lastSelfDeaf st end.

Definition realFlag (channel : Channel) (voiceState : VoiceState) : bool :=
  match channel with Mute => selfMute voiceState | Deafen => selfDeaf voiceState end.

Definition hasSetter (channel : Channel) (connection : Connection) : bool :=
  match channel with
  | Mute => has_setSelfMute connection
  | Deafen => has_setSelfDeaf connection
  end.

Definition setterCall (channel : Channel) (connection : Connection) (value : bool) : Call :=
  match channel with
  | Mute => CallSetSelfMute (connection_id connection) value
  | Deafen => CallSetSelfDeaf (connection_id connection) value
  end.

Definition isSetterCall (c : Call) : bool :=
  match c with
  | CallSetSelfMute _ _ | CallSetSelfDeaf _ _ => true
  | _ => false
  end.

(** The calls an operation added, given the state before and after. *)
Definition callsDuring (before after : State) : list Call :=
  drop (length (trace before)) (trace after).

Definition setterCallsDuring (before after : State) : nat :=
  length (List.filter isSetterCall (callsDuring before after)).

(** ** Settings store, toggle controller and hotkey dispatcher *)

Section Host.

(** Whether the host's settings store invokes a setting's [onChange]
    when the plugin itself writes the setting.  The store is the
    host's; both behaviours are covered. *)
Variable onChangeOnWrite : bool.

(** [settings.store.fakeMute = next] *)
Definition writeFakeMute (env : Env) (next : bool) (st : State) : State :=
  let s := settings st in
  let st := set_settings
              (mkSettings next (fakeDeafen s) (fakeMuteHotkey s) (fakeDeafenHotkey s)) st in
  if onChangeOnWrite then syncFakeMute env next st else st.

(** [settings.store.fakeDeafen = next] *)
Definition writeFakeDeafen (env : Env) (next : bool) (st : State) : State :=
  let s := settings st in
  let st := set_settings
              (mkSettings (fakeMute s) next (fakeMuteHotkey s) (fakeDeafenHotkey s)) st in
  if onChangeOnWrite then syncFakeDeafen env next st else st.

(** [onClick] of the two panel buttons. *)
Definition clickFakeMute (env : Env) (st : State) : State :=
  let nextFakeMute := negb (fakeMute (settings st)) in
  let st := writeFakeMute env nextFakeMute st in
  syncFakeMute env nextFakeMute st.

Definition clickFakeDeafen (env : Env) (st : State) : State :=
  let nextFakeDeafen := negb (fakeDeafen (settings st)) in
  let st := writeFakeDeafen env nextFakeDeafen st in
  syncFakeDeafen env nextFakeDeafen st.

Definition handleHotkeys (env : Env) (event : KeyboardEvent) (st : State) : State :=
  if event_defaultPrevented event || event_repeat event || isRecordingKeybind st
  then st
  else if shouldIgnoreKeybindTarget (event_target event) then st
  else
    let fakeMuteHotkey := fakeMuteHotkey (settings st) in
    let fakeDeafenHotkey := fakeDeafenHotkey (settings st) in
    let handled := false in
    let '(st, handled) :=
      if matchesKeybind event fakeMuteHotkey then
        let next := negb (fakeMute (settings st)) in
        let st := writeFakeMute env next st in
        let st := syncFakeMute env next st in
        (st, true)
      else (st, handled) in
    let '(st, handled) :=
      if matchesKeybind event fakeDeafenHotkey then
        let next := negb (fakeDeafen (settings st)) in
        let st := writeFakeDeafen env next st in
        let st := syncFakeDeafen env next st in
        (st, true)
      else (st, handled) in
    if handled then emit CallStopPropagation (emit CallPreventDefault st)
    else st.

End Host.

Definition startHotkeyListener (st : State) : State :=
  if hotkeyListenerActive st then st
  else
    let st := emit (CallAddEventListener HandleHotkeys) st in
    set_hotkeyListenerActive true st.

Definition stopHotkeyListener (st : State) : State :=
  if negb (hotkeyListenerActive st) then st
  else
    let st := emit (CallRemoveEventListener HandleHotkeys) st in
    let st := set_hotkeyListenerActive false st in
    let st := set_activeKeybindRecorderStop None st in
    set_isRecordingKeybind false st.

(** ** Recorder arbiter

    A [KeybindRow] is a React component.  Its state setter records the
    new value and schedules a re-render of the row; a re-render after a
    change of [isRecording] runs the cleanup of the previous effect and
    then the effect.  A handler together with the re-renders it causes
    runs to completion before the next event is delivered. *)

(** [setIsRecording(value)] of row [row]: nothing when the row is gone or
    the value is the current one. *)
Definition setIsRecording (row : RowId) (value : bool) (st : State) : State :=
  match rows st !! row with
  | Some r =>
    if boolEq (isRecording r) value then st
    else
      let st := set_rows (<[row := mkRow (rowAction r) value]> (rows st)) st in
      set_pendingRenders (pendingRenders st ++ [row]) st
  | None => st
  end.

(** The row's [stopRecording] callback, as reached through
    [activeKeybindRecorderStop]. *)
Definition callStopRecording (row : RowId) (st : State) : State :=
  setIsRecording row false (emit (CallStopRecording row) st).

(** [onHotkeyChange] of the row of [action], as passed by
    [VoiceButtonSettings]. *)
Definition onHotkeyChange (action : Channel) (value : KeybindValue) (st : State) : State :=
  let s := settings st in
  match action with
  | Mute =>
    set_settings (mkSettings (fakeMute s) (fakeDeafen s) value (fakeDeafenHotkey s)) st
  | Deafen =>
    set_settings (mkSettings (fakeMute s) (fakeDeafen s) (fakeMuteHotkey s) value) st
  end.

(** The statement
    [if (activeKeybindRecorderStop && activeKeybindRecorderStop !== stopRecording)
       activeKeybindRecorderStop();] *)
Definition preemptActiveRecorder (row : RowId) (st : State) : State :=
  match activeKeybindRecorderStop st with
  | Some other =>
    if bool_decide (other ≠ row) then callStopRecording other st else st
  | None => st
  end.

(** The rest of the recording branch of the effect. *)
Definition activateRecorder (row : RowId) (st : State) : State :=
  let st := set_activeKeybindRecorderStop (Some row) st in
  let st := set_isRecordingKeybind true st in
  emit (CallAddEventListener (HandleKeyDown row)) st.

(** The effect of [KeybindRow], run for row [row] rendered with
    [isRecording]. *)
Definition keybindRowEffect (row : RowId) (isRecording : bool) (st : State) : State :=
  if negb isRecording then
    let st :=
      if bool_decide (activeKeybindRecorderStop st = Some row)
      then set_activeKeybindRecorderStop None st
      else st in
    set_isRecordingKeybind
      (bool_decide (activeKeybindRecorderStop st ≠ None)) st
  else
    activateRecorder row (preemptActiveRecorder row st).

(** The cleanup the recording branch returns. *)
Definition keybindRowCleanup (row : RowId) (st : State) : State :=
  emit (CallRemoveEventListener (HandleKeyDown row)) st.

(** [handleKeyDown] of a recording row. *)
Definition handleKeyDown (row : RowId) (action : Channel)
    (event : KeyboardEvent) (st : State) : State :=
  let st := emit CallPreventDefault st in
  let st := emit CallStopPropagation st in
  if event_repeat event then st
  else if strEq (event_key event) "Escape" then setIsRecording row false st
  else
    match keybindFromEvent event with
    | None => st
    | Some keybind =>
      let st := onHotkeyChange action (Some keybind) st in
      setIsRecording row false st
    end.

(** Re-render of a row whose [isRecording] changed: the effect that ran
    for the previous value returned a cleanup exactly when that value
    was [true]. *)
Definition commitRow (row : RowId) (st : State) : State :=
  match rows st !! row with
  | Some r =>
    let st := if isRecording r then st else keybindRowCleanup row st in
    keybindRowEffect row (isRecording r) st
  | None => st
  end.

(** Re-render the scheduled rows until none is left.  The fuel is
    React's bound on nested updates. *)
Fixpoint flushRenders (fuel : nat) (st : State) : State :=
  match fuel with
  | O => st
  | S fuel =>
    match pendingRenders st with
    | [] => st
    | row :: rest => flushRenders fuel (commitRow row (set_pendingRenders rest st))
    end
  end.

Definition NESTED_UPDATE_LIMIT : nat := 50.

(** What can happen to the arbiter. *)
Inductive RecorderEvent :=
| Mount (action : Channel)
| Unmount (row : RowId)
| ClickRecord (row : RowId)
| ClickClear (row : RowId)
| RowKeyDown (row : RowId) (event : KeyboardEvent).

(** A row is mounted in the [Idle] state and its effect runs once. *)
Definition mountRow (action : Channel) (st : State) : State :=
  let row := nextRowId st in
  let st := set_nextRowId (S row) st in
  let st := set_rows (<[row := mkRow action false]> (rows st)) st in
  keybindRowEffect row false st.

(** Unmounting runs the cleanup of the last effect, if it returned one. *)
Definition unmountRow (row : RowId) (st : State) : State :=
  match rows st !! row with
  | Some r =>
    let st := if isRecording r then keybindRowCleanup row st else st in
    set_rows (delete row (rows st)) st
  | None => st
  end.

(** [onClick={() => setIsRecording(recording => !recording)}] *)
Definition clickRecord (row : RowId) (st : State) : State :=
  match rows st !! row with
  | Some r => setIsRecording row (negb (isRecording r)) st
  | None => st
  end.

(** [onClick={() => onChangeRef.current(null)}] *)
Definition clickClear (row : RowId) (st : State) : State :=
  match rows st !! row with
  | Some r => onHotkeyChange (rowAction r) None st
  | None => st
  end.

(** A key-down reaches [handleKeyDown] of the rows whose listener is
    attached, the recording ones. *)
Definition rowKeyDown (row : RowId) (event : KeyboardEvent) (st : State) : State :=
  match rows st !! row with
  | Some r => if isRecording r then handleKeyDown row (rowAction r) event st else st
  | None => st
  end.

Definition recorderStep (ev : RecorderEvent) (st : State) : State :=
  flushRenders NESTED_UPDATE_LIMIT
    match ev with
    | Mount action => mountRow action st
    | Unmount row => unmountRow row st
    | ClickRecord row => clickRecord row st
    | ClickClear row => clickClear row st
    | RowKeyDown row event => rowKeyDown row event st
    end.

(** Row [row] is in the [Recording] state. *)
Definition rowRecording (st : State) (row : RowId) : Prop :=
  ∃ r, rows st !! row = Some r ∧ isRecording r = true.

(** ** Notions used in the statements *)

(** The connections of the engine's collection, in iteration order. *)
Definition actualConnections (connections : list (option Connection)) : list Connection :=
  omap id connections.

(** The choice in words: the first connection whose context is
    ["default"] if there is one, otherwise the first connection,
    otherwise none. *)
Definition chosenConnection (connections : list Connection) : option Connection :=
  match List.find (λ c, strEq (context c) "default") connections with
  | Some c => Some c
  | None => head connections
  end.

(** The value a call of [sync] commands, if it commands one. *)
Definition commandedValue (channel : Channel) (env : Env) (nextFake : bool)
    (st : State) : option bool :=
  if nextFake then Some false
  else
    match shadowSlot channel st with
    | Some last => Some last
    | None => realFlag channel <$> getSelfVoiceState env
    end.

(** The setter calls a command of [value] gives rise to. *)
Definition setterCalls (channel : Channel) (env : Env) (value : option bool) : list Call :=
  match value, getDefaultMediaConnection env with
  | Some v, Some connection =>
    if hasSetter channel connection then [setterCall channel connection v] else []
  | _, _ => []
  end.

(** The engine connection is resolved and carries the channel's setter. *)
Definition setterAvailable (channel : Channel) (env : Env) : bool :=
  match getDefaultMediaConnection env with
  | Some connection => hasSetter channel connection
  | None => false
  end.

(** A fake-disable that finds neither a stored value nor a voice state. *)
Definition nothingToRestore (channel : Channel) (env : Env) (nextFake : bool)
    (st : State) : bool :=
  negb nextFake
  && bool_decide (shadowSlot channel st = None)
  && bool_decide (getSelfVoiceState env = None).

(** "Exactly one setter per invocation, none only when the connection
    cannot be resolved", for one invocation. *)
Definition oneSetterUnlessUnresolved (channel : Channel) (env : Env)
    (nextFake : bool) (st : State) : Prop :=
  setterCallsDuring st (sync channel env nextFake st) =
    if getDefaultMediaConnection env is Some _ then 1 else 0.

(** A text-editing surface: an HTML element that lies in an editable
    region (it or an ancestor carries [contenteditable="true"]) or that
    is an [input], a [textarea] or a [select]. *)
Definition isTextEditingSurface (target : EventTarget) : Prop :=
  instanceofHTMLElement (targetElement target) = true
  ∧ ((∃ el, el ∈ targetElement target :: targetAncestors target
            ∧ contenteditable el = Some "true")
     ∨ toLowerCase (tagName (targetElement target)) = "input"
     ∨ toLowerCase (tagName (targetElement target)) = "textarea"
     ∨ toLowerCase (tagName (targetElement target)) = "select").

(** ** Sample inputs *)

Definition sampleConnections : list (option Connection) :=
  [ Some (mkConnection 7 "stream" true true);
    Some (mkConnection 8 "default" true true) ].

(** User ["42"] is muted and not deafened; the engine has a default
    connection. *)
Definition sampleEnv : Env :=
  mkEnv (Some "42") (Some {[ "42" := mkVoiceState true false ]})
        (Some sampleConnections).

(** The same engine while the user's identity is unknown. *)
Definition sampleEnvNoVoice : Env :=
  mkEnv None (Some {[ "42" := mkVoiceState true false ]})
        (Some sampleConnections).

(** The user has unmuted in the meantime. *)
Definition sampleEnvUnmuted : Env :=
  mkEnv (Some "42") (Some {[ "42" := mkVoiceState false false ]})
        (Some sampleConnections).

Definition altM : KeybindSetting := mkKeybind "m" "KeyM" false false true false.

(** Alt+M is the mute shortcut and the listener is running. *)
Definition sampleConfigured : State :=
  startHotkeyListener
    (set_settings (mkSettings false false (Some altM) None) initialState).

(** Alt+M pressed in a text input, and pressed on the page body. *)
Definition altMInInput : KeyboardEvent :=
  mkEvent "m" "KeyM" false false true false false false
          (Some (mkTarget (mkElement "INPUT" true None)
                          [mkElement "DIV" true None; mkElement "BODY" true None])).

Definition altMOnBody : KeyboardEvent :=
  mkEvent "m" "KeyM" false false true false false false
          (Some (mkTarget (mkElement "BODY" true None) [])).

(** What holds between two events: no re-render is outstanding, the
    flag tells whether the slot is set, and a row in the [Recording]
    state is the one the slot names. *)
Definition arbiterInv (st : State) : Prop :=
  pendingRenders st = []
  ∧ isRecordingKeybind st = bool_decide (activeKeybindRecorderStop st ≠ None)
  ∧ ∀ row r, rows st !! row = Some r → isRecording r = true →
             activeKeybindRecorderStop st = Some row.

(** Two rows are mounted and the mute row records. *)
Definition muteRowRecording : State :=
  recorderStep (ClickRecord 0)
    (recorderStep (Mount Deafen) (recorderStep (Mount Mute) initialState)).

(** The same with the hotkey listener running. *)
Definition runningWhileRecording : State :=
  recorderStep (ClickRecord 0)
    (recorderStep (Mount Deafen)
       (recorderStep (Mount Mute) (startHotkeyListener initialState))).

Definition escapeKey : KeyboardEvent :=
  mkEvent "Escape" "Escape" false false false false false false None.

Definition shiftKey : KeyboardEvent :=
  mkEvent "Shift" "ShiftLeft" false true false false false false None.

(** ** Notions used in the further statements *)

(** The toggle of a channel as the panel button runs it, the channel's
    fake flag and the channel's configured shortcut. *)
Definition clickFake (channel : Channel) : bool → Env → State → State :=
  match channel with Mute => clickFakeMute | Deafen => clickFakeDeafen end.

Definition fakeFlag (channel : Channel) (st : State) : bool :=
  match channel with
  | Mute => fakeMute (settings st)
  | Deafen => fakeDeafen (settings st)
  end.

Definition hotkeyOf (channel : Channel) (st : State) : KeybindValue :=
  match channel with
  | Mute => fakeMuteHotkey (settings st)
  | Deafen => fakeDeafenHotkey (settings st)
  end.

Definition otherChannel (channel : Channel) : Channel :=
  match channel with Mute => Deafen | Deafen => Mute end.

(** The [onClick] of the panel buttons in the earlier revision of the
    plugin ([src/unnamed/part_000]): the setting is written and the
    synchronizer is left to the setting's [onChange]. *)
Definition clickFakeMute_legacy (onChangeOnWrite : bool) (env : Env) (st : State) : State :=
  writeFakeMute onChangeOnWrite env (negb (fakeMute (settings st))) st.

Definition clickFakeDeafen_legacy (onChangeOnWrite : bool) (env : Env) (st : State) : State :=
  writeFakeDeafen onChangeOnWrite env (negb (fakeDeafen (settings st))) st.

(** The channel a setter call addresses. *)
Definition setterChannel (c : Call) : option Channel :=
  match c with
  | CallSetSelfMute _ _ => Some Mute
  | CallSetSelfDeaf _ _ => Some Deafen
  | _ => None
  end.

(** The value a setter call carries. *)
Definition setterValue (c : Call) : option bool :=
  match c with
  | CallSetSelfMute _ v | CallSetSelfDeaf _ v => Some v
  | _ => None
  end.

Definition isSyncCall (c : Call) : bool :=
  match c with CallSync _ _ => true | _ => false end.

(** The dispatcher gets past its two guards. *)
Definition hotkeysLive (event : KeyboardEvent) (st : State) : Prop :=
  event_defaultPrevented event = false
  ∧ event_repeat event = false
  ∧ isRecordingKeybind st = false
  ∧ shouldIgnoreKeybindTarget (event_target event) = false.

(** The settings with the channel's fake flag set to [value]. *)
Definition withFakeFlag (channel : Channel) (value : bool) (st : State) : State :=
  let s := settings st in
  match channel with
  | Mute =>
    set_settings (mkSettings value (fakeDeafen s) (fakeMuteHotkey s) (fakeDeafenHotkey s)) st
  | Deafen =>
    set_settings (mkSettings (fakeMute s) value (fakeMuteHotkey s) (fakeDeafenHotkey s)) st
  end.

(** ** The plugin as a whole

    Everything that can happen to the module state: the transitions of
    the recorder arbiter, the lifecycle hooks, a key-down reaching the
    hotkey listener while it is attached, and the clicks on the panel
    buttons.  A key-down that reaches both the hotkey listener and a
    recording row is the two corresponding events. *)
Inductive ProgramEvent :=
| RecorderDoes (ev : RecorderEvent)
| PluginStart
| PluginStop
| HotkeyDown (env : Env) (event : KeyboardEvent)
| ClickFakeMute (env : Env)
| ClickFakeDeafen (env : Env).

Definition programStep (onChangeOnWrite : bool) (ev : ProgramEvent) (st : State) : State :=
  match ev with
  | RecorderDoes ev => recorderStep ev st
  | PluginStart => startHotkeyListener st
  | PluginStop => stopHotkeyListener st
  | HotkeyDown env event =>
    if hotkeyListenerActive st then handleHotkeys onChangeOnWrite env event st else st
  | ClickFakeMute env => clickFakeMute onChangeOnWrite env st
  | ClickFakeDeafen env => clickFakeDeafen onChangeOnWrite env st
  end.

(** The module variables as they are initialised, with whatever
    settings the store has kept. *)
Definition bootState (persisted : Settings) : State :=
  set_settings persisted initialState.

Inductive programReachable (onChangeOnWrite : bool) : State → Prop :=
| programReachable_boot persisted :
    programReachable onChangeOnWrite (bootState persisted)
| programReachable_step ev st :
    programReachable onChangeOnWrite st →
    programReachable onChangeOnWrite (programStep onChangeOnWrite ev st).

Definition listenerEqb (a b : Listener) : bool :=
  match a, b with
  | HandleHotkeys, HandleHotkeys => true
  | HandleKeyDown row, HandleKeyDown row' => Nat.eqb row row'
  | _, _ => false
  end.

Definition isAddOf (l : Listener) (c : Call) : bool :=
  match c with CallAddEventListener l' => listenerEqb l' l | _ => false end.

Definition isRemoveOf (l : Listener) (c : Call) : bool :=
  match c with CallRemoveEventListener l' => listenerEqb l' l | _ => false end.

Definition isListenerCall (c : Call) : bool :=
  match c with
  | CallAddEventListener _ | CallRemoveEventListener _ => true
  | _ => false
  end.

(** How often a listener was registered, and how often removed. *)
Definition registrations (l : Listener) (calls : list Call) : nat :=
  length (List.filter (isAddOf l) calls).

Definition removals (l : Listener) (calls : list Call) : nat :=
  length (List.filter (isRemoveOf l) calls).

(** The listener the state accounts for: the hotkey listener while
    [hotkeyListenerActive], a row's key listener while the row is in
    the [Recording] state. *)
Definition attached (l : Listener) (st : State) : bool :=
  match l with
  | HandleHotkeys => hotkeyListenerActive st
  | HandleKeyDown row =>
    match rows st !! row with
    | Some r => isRecording r
    | None => false
    end
  end.

Definition attachedCount (l : Listener) (st : State) : nat :=
  if attached l st then 1 else 0.

(** What holds between two events of the plugin. *)
Definition programInv (st : State) : Prop :=
  pendingRenders st = []
  ∧ isRecordingKeybind st = bool_decide (activeKeybindRecorderStop st ≠ None)
  ∧ (∀ row, nextRowId st ≤ row → rows st !! row = None)
  ∧ (∀ channel, fakeFlag channel st = false → shadowSlot channel st = None)
  ∧ (∀ l, registrations l (trace st) = removals l (trace st) + attachedCount l st).

(** A step that leaves the recorder and the listeners alone. *)
Definition benign (st st' : State) : Prop :=
  pendingRenders st' = pendingRenders st
  ∧ activeKeybindRecorderStop st' = activeKeybindRecorderStop st
  ∧ isRecordingKeybind st' = isRecordingKeybind st
  ∧ hotkeyListenerActive st' = hotkeyListenerActive st
  ∧ rows st' = rows st
  ∧ nextRowId st' = nextRowId st
  ∧ (∃ calls, trace st' = trace st ++ calls
              ∧ Forall (λ c, isListenerCall c = false) calls)
  ∧ ((∀ channel, fakeFlag channel st = false → shadowSlot channel st = None) →
     ∀ channel, fakeFlag channel st' = false → shadowSlot channel st' = None).

(** [attachedCount] in terms of the two fields it reads. *)
Definition attachedIn (l : Listener) (listenerActive : bool) (m : gmap RowId Row) : nat :=
  match l with
  | HandleHotkeys => if listenerActive then 1 else 0
  | HandleKeyDown row =>
    match m !! row with
    | Some r => if isRecording r then 1 else 0
    | None => 0
    end
  end.

(** A run of the plugin: started with Alt+M as the mute shortcut, the
    mute row of the settings panel mounted and recording, and fake mute
    switched on from the panel. *)
Definition sampleRun : State :=
  programStep false (ClickFakeMute sampleEnv)
    (programStep false (RecorderDoes (ClickRecord 0))
       (programStep false (RecorderDoes (Mount Mute))
          (programStep false PluginStart
             (bootState (mkSettings false false (Some altM) None))))).

(** A step that leaves the fake state, the shadow slots and the engine
    alone. *)
Definition quiet (st st' : State) : Prop :=
  lastSelfMute st' = lastSelfMute st
  ∧ lastSelfDeaf st' = lastSelfDeaf st
  ∧ fakeMute (settings st') = fakeMute (settings st)
  ∧ fakeDeafen (settings st') = fakeDeafen (settings st)
  ∧ hotkeyListenerActive st' = hotkeyListenerActive st
  ∧ ∃ calls, trace st' = trace st ++ calls
             ∧ Forall (λ c, isSetterCall c = false ∧ isSyncCall c = false) calls.

(** The plugin's runs in which [stop()] never arrives while a row of
    the settings panel is in the [Recording] state. *)
Inductive orderlyReachable (onChangeOnWrite : bool) : State → Prop :=
| orderlyReachable_boot persisted :
    orderlyReachable onChangeOnWrite (bootState persisted)
| orderlyReachable_step ev st :
    orderlyReachable onChangeOnWrite st →
    (ev = PluginStop → ∀ row, ¬ rowRecording st row) →
    orderlyReachable onChangeOnWrite (programStep onChangeOnWrite ev st).

(** HTML's reading of an element inside an editable region: the nearest
    of the element and its ancestors that sets [contenteditable]
    decides, the empty value, ["true"] and ["plaintext-only"] making
    the region editable and ["false"] not; any other value is
    inherited.  The values are keywords, read in any letter case. *)
Fixpoint isContentEditable (chain : list Element) : bool :=
  match chain with
  | [] => false
  | el :: rest =>
    match contenteditable el with
    | Some value =>
      let keyword := toLowerCase value in
      if strEq keyword "true" || strEq keyword EmptyString
         || strEq keyword "plaintext-only"
      then true
      else if strEq keyword "false" then false
      else isContentEditable rest
    | None => isContentEditable rest
    end
  end.

(** A text-editing surface in the wider sense: an element inside an
    editable region, or an input, textarea or select element. *)
Definition isEditingSurface (target : EventTarget) : Prop :=
  isContentEditable (targetElement target :: targetAncestors target) = true
  ∨ toLowerCase (tagName (targetElement target)) = "input"
  ∨ toLowerCase (tagName (targetElement target)) = "textarea"
  ∨ toLowerCase (tagName (targetElement target)) = "select".

(** "The dispatcher makes no change for a key event on a text-editing
    surface", for one event. *)
Definition ignoredOnEditingSurface (onChangeOnWrite : bool) (env : Env)
    (event : KeyboardEvent) (st : State) : Prop :=
  ∀ target, event_target event = Some target → isEditingSurface target →
    let st' := handleHotkeys onChangeOnWrite env event st in
    fakeMute (settings st') = fakeMute (settings st)
    ∧ fakeDeafen (settings st') = fakeDeafen (settings st)
    ∧ callsDuring st st' = [].

(** Alt+M pressed in a [div] whose [contenteditable] attribute is
    present with the empty value. *)
Definition altMInEditableDiv : KeyboardEvent :=
  mkEvent "m" "KeyM" false false true false false false
          (Some (mkTarget (mkElement "DIV" true (Some EmptyString))
                          [mkElement "BODY" true None])).

(** "At most one recording session is active": no two rows are in the
    [Recording] state. *)
Definition singleSession (st : State) : Prop :=
  ∀ row1 row2, rowRecording st row1 → rowRecording st row2 → row1 = row2.

(** The code units below 128. *)
Fixpoint isAscii (s : string) : bool :=
  match s with
  | EmptyString => true
  | String c rest => (nat_of_ascii c <? 128)%nat && isAscii rest
  end.

(** The property names a plain JavaScript object inherits from
    [Object.prototype]; a lookup [KEY_LABEL_OVERRIDES[key]] of the
    source finds them too. *)
Definition OBJECT_PROTOTYPE_KEYS : list string :=
  [ "constructor"; "hasOwnProperty"; "isPrototypeOf"; "propertyIsEnumerable";
    "toLocaleString"; "toString"; "valueOf"; "__proto__";
    "__defineGetter__"; "__defineSetter__"; "__lookupGetter__";
    "__lookupSetter__" ].

(** A session of the plugin: started with Alt+M as the mute shortcut,
    both rows of the settings panel mounted, the mute row recording. *)
Definition sampleSession : State :=
  programStep false (RecorderDoes (ClickRecord 0))
    (programStep false (RecorderDoes (Mount Deafen))
       (programStep false (RecorderDoes (Mount Mute))
          (programStep false PluginStart
             (bootState (mkSettings false false (Some altM) None))))).

(** [stop()] arrives while the mute row records, and the plugin is
    started again. *)
Definition stoppedWhileRecording : State :=
  programStep false PluginStop sampleSession.

Definition restartedWhileRecording : State :=
  programStep false PluginStart stoppedWhileRecording.

(** After the stop the deafen row is asked to record. *)
Definition twoRecorders : State :=
  programStep false (RecorderDoes (ClickRecord 1)) stoppedWhileRecording.

(** Ctrl+K pressed on the page body. *)
Definition ctrlK : KeyboardEvent :=
  mkEvent "k" "KeyK" true false false false false false
          (Some (mkTarget (mkElement "BODY" true None) [])).

(** * Properties *)

(** ** Shortcut model *)

Lemma strEq_refl (s : string) : strEq s s = true.
Proof. apply String.eqb_refl. Qed.

Lemma boolEq_refl (b : bool) : boolEq b b = true.
Proof. by destruct b. Qed.

Lemma elem_of_MODIFIER_KEYS (k : string) :
  k ∈ MODIFIER_KEYS ↔ k = "Shift" ∨ k = "Control" ∨ k = "Alt" ∨ k = "Meta".
Proof.
  unfold MODIFIER_KEYS.
  rewrite !elem_of_union, !elem_of_singleton. tauto.
Qed.

Lemma keybindFromEvent_modifier (e : KeyboardEvent) :
  event_key e ∈ MODIFIER_KEYS → keybindFromEvent e = None.
Proof. intros Hin. unfold keybindFromEvent. by rewrite bool_decide_eq_true_2. Qed.

Lemma keybindFromEvent_other (e : KeyboardEvent) :
  event_key e ∉ MODIFIER_KEYS →
  keybindFromEvent e =
    Some (mkKeybind (event_key e) (event_code e) (event_ctrlKey e)
                    (event_shiftKey e) (event_altKey e) (event_metaKey e)).
Proof. intros Hin. unfold keybindFromEvent. by rewrite bool_decide_eq_false_2. Qed.

Lemma matchesKeybind_self (e : KeyboardEvent) :
  matchesKeybind e
    (Some (mkKeybind (event_key e) (event_code e) (event_ctrlKey e)
                     (event_shiftKey e) (event_altKey e) (event_metaKey e))) = true.
Proof.
  unfold matchesKeybind; cbn [key code ctrl shift alt meta].
  rewrite !strEq_refl, !boolEq_refl.
  by destruct (truthy (event_code e)).
Qed.

(** C5: for every keyboard event whose key is none of Shift, Control,
    Alt and Meta, [keybindFromEvent] yields a descriptor and the event
    matches that descriptor. *)
Theorem keybind_round_trip (e : KeyboardEvent) :
  event_key e ≠ "Shift" → event_key e ≠ "Control" →
  event_key e ≠ "Alt" → event_key e ≠ "Meta" →
  (∃ keybind, keybindFromEvent e = Some keybind)
  ∧ matchesKeybind e (keybindFromEvent e) = true.
Proof.
  intros HShift HControl HAlt HMeta.
  assert (event_key e ∉ MODIFIER_KEYS) as Hout.
  { rewrite elem_of_MODIFIER_KEYS. tauto. }
  rewrite (keybindFromEvent_other _ Hout). split.
  - eauto.
  - apply matchesKeybind_self.
Qed.

Lemma keybind_round_trip_witness :
  let e := mkEvent "m" "KeyM" false false true false false false None in
  (∃ keybind, keybindFromEvent e = Some keybind)
  ∧ matchesKeybind e (keybindFromEvent e) = true.
Proof.
  intros e. apply (keybind_round_trip e); simpl; intros H; inversion H.
Defined.

(** C8: on a platform that is not a Mac the descriptor
    [{key:"m", code:"KeyM", alt:true}] with the other modifiers off is
    shown as ["Alt+M"], and an absent descriptor as ["Not set"]. *)
Theorem format_alt_m_and_absent :
  formatKeybind false (Some (mkKeybind "m" "KeyM" false false true false)) = "Alt+M"
  ∧ formatKeybind false None = "Not set".
Proof. split; vm_compute; reflexivity. Qed.

(** ** Choice of the engine connection *)

Lemma connectionLoop_chosen (fallback : option Connection)
    (connections : list (option Connection)) :
  connectionLoop fallback connections =
    match List.find (λ c, strEq (context c) "default") (actualConnections connections) with
    | Some c => Some c
    | None =>
      match fallback with
      | Some f => Some f
      | None => head (actualConnections connections)
      end
    end.
Proof.
  revert fallback.
  induction connections as [|connection rest IH]; intros fallback.
  - by destruct fallback.
  - destruct connection as [c|]; cbn.
    + destruct (strEq (context c) "default") eqn:Hctx; [done|].
      rewrite IH. by destruct fallback.
    + rewrite IH. by destruct fallback.
Qed.

Lemma getDefaultMediaConnection_chosen (env : Env) :
  getDefaultMediaConnection env =
    match mediaEngineConnections env with
    | Some connections => chosenConnection (actualConnections connections)
    | None => None
    end.
Proof.
  unfold getDefaultMediaConnection, chosenConnection.
  destruct (mediaEngineConnections env); [|done].
  by rewrite connectionLoop_chosen.
Qed.

(** ** Fake-state synchronizer *)

(** Case analysis on what a synchronizer reads: the shadow slot, the
    voice state, the connection and its setter. *)
Ltac sync_cases :=
  repeat match goal with
  | |- context [match ?x with _ => _ end] =>
      lazymatch x with
      | lastSelfMute _ => destruct x eqn:?
      | lastSelfDeaf _ => destruct x eqn:?
      | getSelfVoiceState _ => destruct x eqn:?
      | getDefaultMediaConnection _ => destruct x eqn:?
      | has_setSelfMute _ => destruct x eqn:?
      | has_setSelfDeaf _ => destruct x eqn:?
      end; cbn
  end.

Lemma sync_trace (channel : Channel) (env : Env) (nextFake : bool) (st : State) :
  trace (sync channel env nextFake st) =
    trace st ++ CallSync channel nextFake
             :: setterCalls channel env (commandedValue channel env nextFake st).
Proof.
  destruct channel, nextFake; cbn;
    unfold syncFakeMute, syncFakeDeafen, setLocalMute, setLocalDeaf,
           commandedValue, setterCalls; cbn;
    sync_cases;
    rewrite <- ?app_assoc; reflexivity.
Qed.

Lemma sync_shadowSlot (channel : Channel) (env : Env) (nextFake : bool) (st : State) :
  shadowSlot channel (sync channel env nextFake st) =
    if nextFake then realFlag channel <$> getSelfVoiceState env else None.
Proof.
  destruct channel, nextFake; cbn;
    unfold syncFakeMute, syncFakeDeafen, setLocalMute, setLocalDeaf; cbn;
    sync_cases;
    try reflexivity; congruence.
Qed.

Lemma callsDuring_app (before after : State) (calls : list Call) :
  trace after = trace before ++ calls → callsDuring before after = calls.
Proof. intros H. unfold callsDuring. rewrite H. apply drop_app_length. Qed.

Lemma sync_callsDuring (channel : Channel) (env : Env) (nextFake : bool) (st : State) :
  callsDuring st (sync channel env nextFake st) =
    CallSync channel nextFake
      :: setterCalls channel env (commandedValue channel env nextFake st).
Proof. apply callsDuring_app, sync_trace. Qed.

Lemma sync_disable_restores_slot (channel : Channel) (env : Env) (st : State)
    (last : bool) (connection : Connection) :
  shadowSlot channel st = Some last →
  getDefaultMediaConnection env = Some connection →
  hasSetter channel connection = true →
  trace (sync channel env false st) =
    trace st ++ [ CallSync channel false; setterCall channel connection last ]
  ∧ shadowSlot channel (sync channel env false st) = None.
Proof.
  intros Hslot Hconn Hsetter. split.
  - rewrite sync_trace. unfold commandedValue, setterCalls.
    rewrite Hslot, Hconn, Hsetter. reflexivity.
  - apply sync_shadowSlot.
Qed.

(** C1: for either channel and any observed real flag, [sync(true)]
    followed by [sync(false)] ends with one setter call that carries
    the flag observed by the first call, and leaves the channel's
    shadow slot unset.  The engine connection has to be resolved, with
    the setter, at the second call; what the stores answer then is
    otherwise free. *)
Theorem sync_enable_disable_restores (channel : Channel) (env1 env2 : Env)
    (st : State) (voiceState : VoiceState) (connection : Connection) :
  getSelfVoiceState env1 = Some voiceState →
  getDefaultMediaConnection env2 = Some connection →
  hasSetter channel connection = true →
  let enabled := sync channel env1 true st in
  let disabled := sync channel env2 false enabled in
  trace disabled =
    trace enabled ++ [ CallSync channel false;
                       setterCall channel connection (realFlag channel voiceState) ]
  ∧ shadowSlot channel disabled = None.
Proof.
  intros Hvoice Hconn Hsetter enabled disabled. subst enabled disabled.
  apply sync_disable_restores_slot; [|done..].
  by rewrite sync_shadowSlot, Hvoice.
Qed.

Lemma sync_enable_disable_restores_witness :
  trace (sync Mute sampleEnvUnmuted false (sync Mute sampleEnv true initialState)) =
    trace (sync Mute sampleEnv true initialState)
      ++ [ CallSync Mute false; CallSetSelfMute 8 true ]
  ∧ shadowSlot Mute
      (sync Mute sampleEnvUnmuted false (sync Mute sampleEnv true initialState)) = None.
Proof.
  apply (sync_enable_disable_restores Mute sampleEnv sampleEnvUnmuted initialState
           (mkVoiceState true false) (mkConnection 8 "default" true true));
    vm_compute; reflexivity.
Defined.

(** C2 as stated fails: a fake-disable that finds no stored value and
    no voice state calls no setter although the connection is resolved. *)
Lemma one_setter_unless_unresolved_fails :
  getDefaultMediaConnection sampleEnvNoVoice = Some (mkConnection 8 "default" true true)
  ∧ setterCallsDuring initialState (sync Mute sampleEnvNoVoice false initialState) = 0
  ∧ ¬ oneSetterUnlessUnresolved Mute sampleEnvNoVoice false initialState.
Proof.
  split; [by vm_compute|]. split; [by vm_compute|].
  unfold oneSetterUnlessUnresolved. vm_compute. intros H; inversion H.
Qed.

Lemma length_filter_setterCalls (channel : Channel) (env : Env) (value : option bool) :
  length (List.filter isSetterCall (setterCalls channel env value)) =
    if setterAvailable channel env && bool_decide (value ≠ None) then 1 else 0.
Proof.
  unfold setterCalls, setterAvailable.
  destruct value as [v|], (getDefaultMediaConnection env) as [c|]; cbn; try done.
  - destruct (hasSetter channel c); [|done]. by destruct channel.
  - by destruct (hasSetter channel c).
Qed.

(** C2, amended: an invocation of [sync] calls one setter when the
    connection is resolved with the channel's setter, except that a
    fake-disable finding neither a stored value nor a voice state calls
    none; otherwise it calls none.  It never calls more than one. *)
Theorem sync_setter_count (channel : Channel) (env : Env) (nextFake : bool)
    (st : State) :
  setterCallsDuring st (sync channel env nextFake st) =
    if setterAvailable channel env && negb (nothingToRestore channel env nextFake st)
    then 1 else 0.
Proof.
  unfold setterCallsDuring. rewrite sync_callsDuring. cbn [List.filter isSetterCall].
  rewrite length_filter_setterCalls.
  unfold commandedValue, nothingToRestore.
  destruct (setterAvailable channel env); [|done]. cbn.
  destruct nextFake; cbn; [done|].
  destruct (shadowSlot channel st); cbn; [done|].
  by destruct (getSelfVoiceState env).
Qed.

(** C3: [sync(false)] with the shadow slot unset commands the setter
    with the real flag currently observed and leaves the slot unset.
    The voice state has to be available and the connection resolved,
    with the setter. *)
Theorem sync_disable_unset_reconciles (channel : Channel) (env : Env)
    (st : State) (voiceState : VoiceState) (connection : Connection) :
  shadowSlot channel st = None →
  getSelfVoiceState env = Some voiceState →
  getDefaultMediaConnection env = Some connection →
  hasSetter channel connection = true →
  trace (sync channel env false st) =
    trace st ++ [ CallSync channel false;
                  setterCall channel connection (realFlag channel voiceState) ]
  ∧ shadowSlot channel (sync channel env false st) = None.
Proof.
  intros Hslot Hvoice Hconn Hsetter. split.
  - rewrite sync_trace. unfold commandedValue, setterCalls.
    rewrite Hslot, Hvoice, Hconn, Hsetter. reflexivity.
  - apply sync_shadowSlot.
Qed.

Lemma sync_disable_unset_reconciles_witness :
  trace (sync Mute sampleEnv false initialState) =
    trace initialState ++ [ CallSync Mute false; CallSetSelfMute 8 true ]
  ∧ shadowSlot Mute (sync Mute sampleEnv false initialState) = None.
Proof.
  apply (sync_disable_unset_reconciles Mute sampleEnv initialState
           (mkVoiceState true false) (mkConnection 8 "default" true true));
    vm_compute; reflexivity.
Defined.

(** C9: after a second [sync(true)] with no [sync(false)] in between,
    the shadow slot holds what the second call observed, whatever the
    first call stored, and a following [sync(false)] commands that
    later observation. *)
Theorem sync_enable_twice_overwrites (channel : Channel) (env1 env2 env3 : Env)
    (st : State) :
  let twice := sync channel env2 true (sync channel env1 true st) in
  shadowSlot channel twice = realFlag channel <$> getSelfVoiceState env2
  ∧ ∀ (voiceState : VoiceState) (connection : Connection),
      getSelfVoiceState env2 = Some voiceState →
      getDefaultMediaConnection env3 = Some connection →
      hasSetter channel connection = true →
      trace (sync channel env3 false twice) =
        trace twice ++ [ CallSync channel false;
                         setterCall channel connection (realFlag channel voiceState) ]
      ∧ shadowSlot channel (sync channel env3 false twice) = None.
Proof.
  intros twice. subst twice. split; [apply sync_shadowSlot|].
  intros voiceState connection Hvoice Hconn Hsetter.
  apply sync_disable_restores_slot; [|done..].
  by rewrite sync_shadowSlot, Hvoice.
Qed.

Lemma sync_enable_twice_overwrites_witness :
  let twice := sync Mute sampleEnvUnmuted true (sync Mute sampleEnv true initialState) in
  shadowSlot Mute twice = Some false
  ∧ trace (sync Mute sampleEnv false twice) =
      trace twice ++ [ CallSync Mute false; CallSetSelfMute 8 false ]
  ∧ shadowSlot Mute (sync Mute sampleEnv false twice) = None.
Proof.
  intros twice.
  destruct (sync_enable_twice_overwrites Mute sampleEnv sampleEnvUnmuted sampleEnv
              initialState) as [Hslot Hrestore].
  split; [exact Hslot|].
  apply (Hrestore (mkVoiceState false false) (mkConnection 8 "default" true true));
    vm_compute; reflexivity.
Defined.

(** C10: the connection a setter call goes to is the first connection
    of the engine's collection whose context is ["default"] if there is
    one, otherwise the first connection of the collection, and when
    there is none no setter is called.  Nullish entries of the
    collection are not connections. *)
Theorem setter_calls_target_chosen_connection (channel : Channel) (env : Env)
    (value nextFake : bool) (st : State) :
  getDefaultMediaConnection env =
    match mediaEngineConnections env with
    | Some connections => chosenConnection (actualConnections connections)
    | None => None
    end
  ∧ callsDuring st (setLocalMute env value st) =
      match getDefaultMediaConnection env with
      | Some connection =>
        if has_setSelfMute connection
        then [CallSetSelfMute (connection_id connection) value] else []
      | None => []
      end
  ∧ callsDuring st (setLocalDeaf env value st) =
      match getDefaultMediaConnection env with
      | Some connection =>
        if has_setSelfDeaf connection
        then [CallSetSelfDeaf (connection_id connection) value] else []
      | None => []
      end
  ∧ List.filter isSetterCall (callsDuring st (sync channel env nextFake st)) =
      match getDefaultMediaConnection env, commandedValue channel env nextFake st with
      | Some connection, Some v =>
        if hasSetter channel connection then [setterCall channel connection v] else []
      | _, _ => []
      end.
Proof.
  split; [apply getDefaultMediaConnection_chosen|].
  split; [|split].
  - apply callsDuring_app. unfold setLocalMute.
    destruct (getDefaultMediaConnection env) as [c|]; [|by rewrite app_nil_r].
    destruct (has_setSelfMute c); [done|by rewrite app_nil_r].
  - apply callsDuring_app. unfold setLocalDeaf.
    destruct (getDefaultMediaConnection env) as [c|]; [|by rewrite app_nil_r].
    destruct (has_setSelfDeaf c); [done|by rewrite app_nil_r].
  - rewrite sync_callsDuring. cbn [List.filter isSetterCall].
    unfold setterCalls.
    destruct (commandedValue channel env nextFake st) as [v|],
             (getDefaultMediaConnection env) as [c|]; try done.
    destruct (hasSetter channel c); [|done]. by destruct channel.
Qed.

(** ** Hotkey dispatcher *)

Lemma shouldIgnoreKeybindTarget_surface (target : EventTarget) :
  isTextEditingSurface target → shouldIgnoreKeybindTarget (Some target) = true.
Proof.
  intros [Hhtml Hsurface]. unfold shouldIgnoreKeybindTarget.
  rewrite Hhtml. cbn [negb].
  destruct (closestContentEditable target) as [el|] eqn:Hclosest; [done|].
  destruct Hsurface as [(el & Hel & Hattr)|Htag].
  - unfold closestContentEditable in Hclosest.
    apply list_elem_of_In in Hel.
    pose proof (find_none _ _ Hclosest el Hel) as Hno. cbn in Hno.
    by rewrite bool_decide_eq_true_2 in Hno.
  - cbn. destruct Htag as [-> | [-> | ->]]; done.
Qed.

(** C6, amended: a key event whose target is an HTML element that
    carries [contenteditable="true"] itself or below an ancestor that
    does, or that is an input, textarea or select element, leaves the
    dispatcher without any change: the state, fake flags included, is
    the one before and no call is made, whatever shortcuts are
    configured. *)
Theorem handleHotkeys_ignores_text_entry (onChangeOnWrite : bool) (env : Env)
    (event : KeyboardEvent) (st : State) (target : EventTarget) :
  event_target event = Some target →
  isTextEditingSurface target →
  handleHotkeys onChangeOnWrite env event st = st
  ∧ callsDuring st (handleHotkeys onChangeOnWrite env event st) = [].
Proof.
  intros Htarget Hsurface.
  assert (handleHotkeys onChangeOnWrite env event st = st) as Hsame.
  { unfold handleHotkeys.
    rewrite Htarget, (shouldIgnoreKeybindTarget_surface _ Hsurface).
    by destruct (_ || _ || _). }
  split; [done|]. rewrite Hsame. unfold callsDuring. apply drop_all.
Qed.

(** The shortcut of the sample fires on the page body. *)
Example altM_fires_on_body :
  matchesKeybind altMInInput (fakeMuteHotkey (settings sampleConfigured)) = true
  ∧ callsDuring sampleConfigured (handleHotkeys false sampleEnv altMOnBody sampleConfigured) =
      [ CallSync Mute true; CallSetSelfMute 8 false;
        CallPreventDefault; CallStopPropagation ]
  ∧ fakeMute (settings (handleHotkeys false sampleEnv altMOnBody sampleConfigured)) = true.
Proof. by vm_compute. Qed.

Lemma handleHotkeys_ignores_text_entry_witness :
  handleHotkeys false sampleEnv altMInInput sampleConfigured = sampleConfigured
  ∧ callsDuring sampleConfigured
      (handleHotkeys false sampleEnv altMInInput sampleConfigured) = [].
Proof.
  apply (handleHotkeys_ignores_text_entry false sampleEnv altMInInput sampleConfigured
           (mkTarget (mkElement "INPUT" true None)
                     [mkElement "DIV" true None; mkElement "BODY" true None])).
  - reflexivity.
  - split; [reflexivity|]. right. left. vm_compute. reflexivity.
Defined.

(** C6 as stated fails: a [div] whose [contenteditable] attribute has
    the empty value is an editable region, the guard of the dispatcher
    looks for the literal value ["true"] only, and a matching shortcut
    pressed in it toggles fake mute. *)
Lemma dispatcher_fires_in_editable_region :
  (∃ target, event_target altMInEditableDiv = Some target
             ∧ isEditingSurface target)
  ∧ shouldIgnoreKeybindTarget (event_target altMInEditableDiv) = false
  ∧ fakeMute (settings sampleConfigured) = false
  ∧ fakeMute (settings (handleHotkeys false sampleEnv altMInEditableDiv
                          sampleConfigured)) = true
  ∧ callsDuring sampleConfigured
      (handleHotkeys false sampleEnv altMInEditableDiv sampleConfigured) =
      [ CallSync Mute true; CallSetSelfMute 8 false;
        CallPreventDefault; CallStopPropagation ]
  ∧ ¬ ignoredOnEditingSurface false sampleEnv altMInEditableDiv sampleConfigured.
Proof.
  assert (isEditingSurface (mkTarget (mkElement "DIV" true (Some EmptyString))
                                     [mkElement "BODY" true None])) as Hsurface.
  { left. by vm_compute. }
  split; [by eexists|].
  split; [by vm_compute|]. split; [by vm_compute|].
  split; [by vm_compute|]. split; [by vm_compute|].
  intros Hignored. destruct (Hignored _ eq_refl Hsurface) as (Hflag & _).
  by vm_compute in Hflag.
Qed.

(** ** Lifecycle of the hotkey listener *)

(** X28: the variables of the listener through start and stop.
    Starting twice is starting once (the listener is registered once,
    the second call changes nothing); stopping a stopped listener
    changes nothing; stopping a running listener removes it, makes no
    other call, empties the recorder slot and resets the flag that
    suppresses the hotkeys, and leaves the rows of the settings panel
    as they are; slot and flag stay reset, and the rows unchanged, when
    the listener is started again. *)
Theorem hotkey_listener_lifecycle (st : State) :
  startHotkeyListener (startHotkeyListener st) = startHotkeyListener st
  ∧ (hotkeyListenerActive st = true → startHotkeyListener st = st)
  ∧ (hotkeyListenerActive st = false →
       callsDuring st (startHotkeyListener (startHotkeyListener st)) =
         [CallAddEventListener HandleHotkeys]
       ∧ hotkeyListenerActive (startHotkeyListener st) = true)
  ∧ (hotkeyListenerActive st = false → stopHotkeyListener st = st)
  ∧ (hotkeyListenerActive st = true →
       let stopped := stopHotkeyListener st in
       let restarted := startHotkeyListener stopped in
       callsDuring st stopped = [CallRemoveEventListener HandleHotkeys]
       ∧ hotkeyListenerActive stopped = false
       ∧ activeKeybindRecorderStop stopped = None
       ∧ isRecordingKeybind stopped = false
       ∧ rows stopped = rows st
       ∧ stopHotkeyListener stopped = stopped
       ∧ hotkeyListenerActive restarted = true
       ∧ activeKeybindRecorderStop restarted = None
       ∧ isRecordingKeybind restarted = false
       ∧ rows restarted = rows st).
Proof.
  unfold startHotkeyListener, stopHotkeyListener, callsDuring.
  destruct (hotkeyListenerActive st) eqn:Hactive; cbn; rewrite ?Hactive; cbn;
    repeat match goal with
    | |- _ ∧ _ => split
    | |- _ → _ => intros ?
    end;
    try done; by rewrite drop_app_length.
Qed.

(** ** Recorder arbiter *)

Lemma flushRenders_nil (fuel : nat) (st : State) :
  pendingRenders st = [] → flushRenders fuel st = st.
Proof. intros H. destruct fuel; cbn; [done|]. by rewrite H. Qed.

Lemma flushRenders_cons (fuel : nat) (st : State) (row : RowId) (rest : list RowId) :
  pendingRenders st = row :: rest →
  flushRenders (S fuel) st =
    flushRenders fuel (commitRow row (set_pendingRenders rest st)).
Proof. intros H. cbn. by rewrite H. Qed.

Lemma setIsRecording_changed (row : RowId) (value : bool) (st : State)
    (action : Channel) :
  rows st !! row = Some (mkRow action (negb value)) →
  setIsRecording row value st =
    set_pendingRenders (pendingRenders st ++ [row])
      (set_rows (<[row := mkRow action value]> (rows st)) st).
Proof. intros H. unfold setIsRecording. rewrite H. cbn. by destruct value. Qed.

Local Arguments flushRenders : simpl never.

(** Two states with the same fields are the same state. *)
Lemma state_eq (a b : State) :
  lastSelfMute a = lastSelfMute b →
  lastSelfDeaf a = lastSelfDeaf b →
  activeKeybindRecorderStop a = activeKeybindRecorderStop b →
  isRecordingKeybind a = isRecordingKeybind b →
  hotkeyListenerActive a = hotkeyListenerActive b →
  settings a = settings b →
  rows a = rows b →
  nextRowId a = nextRowId b →
  pendingRenders a = pendingRenders b →
  trace a = trace b →
  a = b.
Proof. destruct a, b; cbn; intros; by subst. Qed.

Ltac state_fields :=
  lazy beta iota zeta delta
    [ keybindRowCleanup emit set_lastSelfMute set_lastSelfDeaf
      set_activeKeybindRecorderStop set_isRecordingKeybind
      set_hotkeyListenerActive set_settings set_rows set_nextRowId
      set_pendingRenders lastSelfMute lastSelfDeaf activeKeybindRecorderStop
      isRecordingKeybind hotkeyListenerActive settings rows nextRowId
      pendingRenders trace ].

Ltac state_norm :=
  apply state_eq; state_fields; rewrite <- ?app_assoc; reflexivity.

Ltac flush_one :=
  erewrite flushRenders_cons by (cbn; rewrite ?app_nil_l; reflexivity);
  unfold commitRow; cbn.

(** A recording row named by the slot goes back to [Idle]. *)
Lemma stop_transition (fuel : nat) (st : State) (row : RowId) (action : Channel) :
  rows st !! row = Some (mkRow action true) →
  pendingRenders st = [] →
  activeKeybindRecorderStop st = Some row →
  flushRenders (S fuel) (setIsRecording row false st) =
    mkState (lastSelfMute st) (lastSelfDeaf st) None false (hotkeyListenerActive st)
            (settings st) (<[row := mkRow action false]> (rows st)) (nextRowId st) []
            (trace st ++ [CallRemoveEventListener (HandleKeyDown row)]).
Proof.
  intros Hrow Hpend Hactive.
  unfold setIsRecording. rewrite Hrow. cbn. rewrite Hpend.
  flush_one. rewrite lookup_insert_eq. cbn.
  unfold keybindRowEffect. cbn. rewrite Hactive.
  rewrite (bool_decide_eq_true_2 (Some row = Some row)) by done. cbn.
  rewrite flushRenders_nil by done. state_norm.
Qed.

(** An idle row starts recording while no other row holds the slot. *)
Lemma start_transition_free (fuel : nat) (st : State) (row : RowId) (action : Channel) :
  rows st !! row = Some (mkRow action false) →
  pendingRenders st = [] →
  activeKeybindRecorderStop st = None ∨ activeKeybindRecorderStop st = Some row →
  flushRenders (S fuel) (setIsRecording row true st) =
    mkState (lastSelfMute st) (lastSelfDeaf st) (Some row) true (hotkeyListenerActive st)
            (settings st) (<[row := mkRow action true]> (rows st)) (nextRowId st) []
            (trace st ++ [CallAddEventListener (HandleKeyDown row)]).
Proof.
  intros Hrow Hpend Hactive.
  unfold setIsRecording. rewrite Hrow. cbn. rewrite Hpend.
  flush_one. rewrite lookup_insert_eq. cbn.
  unfold keybindRowEffect, preemptActiveRecorder, activateRecorder. cbn.
  destruct Hactive as [-> | ->]; cbn.
  - rewrite flushRenders_nil by done. state_norm.
  - rewrite (bool_decide_eq_false_2 (row ≠ row)) by (intros H; by apply H).
    rewrite flushRenders_nil by done. state_norm.
Qed.

(** An idle row starts recording while another row is recording. *)
Lemma start_transition_preempt (fuel : nat) (st : State) (row other : RowId)
    (action action' : Channel) :
  rows st !! row = Some (mkRow action false) →
  pendingRenders st = [] →
  activeKeybindRecorderStop st = Some other →
  other ≠ row →
  rows st !! other = Some (mkRow action' true) →
  flushRenders (S (S fuel)) (setIsRecording row true st) =
    mkState (lastSelfMute st) (lastSelfDeaf st) (Some row) true (hotkeyListenerActive st)
            (settings st)
            (<[other := mkRow action' false]> (<[row := mkRow action true]> (rows st)))
            (nextRowId st) []
            (trace st ++ [ CallStopRecording other;
                           CallAddEventListener (HandleKeyDown row);
                           CallRemoveEventListener (HandleKeyDown other) ]).
Proof.
  intros Hrow Hpend Hactive Hne Hother.
  unfold setIsRecording at 1. rewrite Hrow. cbn. rewrite Hpend.
  flush_one. rewrite lookup_insert_eq. cbn.
  unfold keybindRowEffect, preemptActiveRecorder, activateRecorder. cbn.
  rewrite Hactive, (bool_decide_eq_true_2 (other ≠ row)) by done.
  unfold callStopRecording, setIsRecording. cbn.
  rewrite lookup_insert_ne, Hother by done. cbn.
  flush_one. rewrite lookup_insert_eq. cbn.
  unfold keybindRowEffect. cbn.
  rewrite (bool_decide_eq_false_2 (Some row = Some other)) by congruence. cbn.
  rewrite flushRenders_nil by done. state_norm.
Qed.

(** An idle row starts recording while the slot names a row that is
    not recording any more. *)
Lemma start_transition_stale (fuel : nat) (st : State) (row other : RowId)
    (action : Channel) :
  rows st !! row = Some (mkRow action false) →
  pendingRenders st = [] →
  activeKeybindRecorderStop st = Some other →
  other ≠ row →
  (∀ r, rows st !! other = Some r → isRecording r = false) →
  flushRenders (S fuel) (setIsRecording row true st) =
    mkState (lastSelfMute st) (lastSelfDeaf st) (Some row) true (hotkeyListenerActive st)
            (settings st) (<[row := mkRow action true]> (rows st)) (nextRowId st) []
            (trace st ++ [ CallStopRecording other;
                           CallAddEventListener (HandleKeyDown row) ]).
Proof.
  intros Hrow Hpend Hactive Hne Hother.
  unfold setIsRecording at 1. rewrite Hrow. cbn. rewrite Hpend.
  flush_one. rewrite lookup_insert_eq. cbn.
  unfold keybindRowEffect, preemptActiveRecorder, activateRecorder. cbn.
  rewrite Hactive, (bool_decide_eq_true_2 (other ≠ row)) by done.
  unfold callStopRecording, setIsRecording. cbn.
  rewrite lookup_insert_ne by done.
  destruct (rows st !! other) as [[action' recording]|] eqn:Hlookup; cbn.
  - pose proof (Hother _ eq_refl) as Hidle. cbn in Hidle. subst recording. cbn.
    rewrite flushRenders_nil by done. state_norm.
  - rewrite flushRenders_nil by done. state_norm.
Qed.

Lemma arbiterInv_initial : arbiterInv initialState.
Proof.
  split; [done|]. split; [done|].
  intros row r Hrow. cbn in Hrow. by rewrite lookup_empty in Hrow.
Qed.

(** The invariant survives a row going back to [Idle]. *)
Lemma arbiterInv_idle (st st' : State) (row : RowId) (action : Channel) :
  arbiterInv st →
  activeKeybindRecorderStop st = Some row →
  pendingRenders st' = [] →
  activeKeybindRecorderStop st' = None →
  isRecordingKeybind st' = false →
  rows st' = <[row := mkRow action false]> (rows st) →
  arbiterInv st'.
Proof.
  intros (_ & _ & Hrows) Hactive Hpend' Hactive' Hflag' Hrows'.
  split; [done|]. split; [by rewrite Hflag', Hactive'|].
  intros row' r Hlookup Hrec. rewrite Hrows' in Hlookup.
  destruct (decide (row = row')) as [<-|Hne].
  - rewrite lookup_insert_eq in Hlookup. by simplify_eq.
  - rewrite lookup_insert_ne in Hlookup by done.
    specialize (Hrows _ _ Hlookup Hrec). congruence.
Qed.

(** The invariant holds once [row] holds the slot and is the only row
    that records. *)
Lemma arbiterInv_recording (st' : State) (row : RowId) :
  pendingRenders st' = [] →
  activeKeybindRecorderStop st' = Some row →
  isRecordingKeybind st' = true →
  (∀ row' r, rows st' !! row' = Some r → isRecording r = true → row' = row) →
  arbiterInv st'.
Proof.
  intros Hpend Hactive Hflag Honly.
  split; [done|]. split; [by rewrite Hflag, Hactive|].
  intros row' r Hlookup Hrec. by rewrite (Honly _ _ Hlookup Hrec).
Qed.

(** The invariant looks at four fields only. *)
Lemma arbiterInv_frame (st st' : State) :
  arbiterInv st →
  pendingRenders st' = pendingRenders st →
  activeKeybindRecorderStop st' = activeKeybindRecorderStop st →
  isRecordingKeybind st' = isRecordingKeybind st →
  rows st' = rows st →
  arbiterInv st'.
Proof.
  intros (Hpend & Hflag & Hrows) Hp Ha Hf Hr. unfold arbiterInv.
  by rewrite Hp, Ha, Hf, Hr.
Qed.

Lemma arbiterInv_stop (fuel : nat) (st st' : State) (row : RowId) (action : Channel) :
  arbiterInv st →
  rows st !! row = Some (mkRow action true) →
  pendingRenders st' = pendingRenders st →
  activeKeybindRecorderStop st' = activeKeybindRecorderStop st →
  rows st' = rows st →
  arbiterInv (flushRenders (S fuel) (setIsRecording row false st')).
Proof.
  intros Hinv Hrow Hp Ha Hr.
  pose proof Hinv as (Hpend & _ & Hrows).
  pose proof (Hrows _ _ Hrow eq_refl) as Hactive.
  rewrite (stop_transition fuel st' row action) by congruence.
  eapply (arbiterInv_idle st _ row action); cbn; try done. by rewrite Hr.
Qed.

Lemma arbiterInv_start (fuel : nat) (st : State) (row : RowId) (action : Channel) :
  arbiterInv st →
  rows st !! row = Some (mkRow action false) →
  arbiterInv (flushRenders (S (S fuel)) (setIsRecording row true st)).
Proof.
  intros Hinv Hrow. pose proof Hinv as (Hpend & _ & Hrows).
  destruct (activeKeybindRecorderStop st) as [other|] eqn:Hactive.
  - destruct (decide (other = row)) as [->|Hne].
    + rewrite (start_transition_free _ st row action) by auto.
      apply (arbiterInv_recording _ row); cbn; try done.
      intros row' r Hlookup Hrec.
      destruct (decide (row = row')) as [|Hne]; [done|].
      rewrite lookup_insert_ne in Hlookup by done.
      specialize (Hrows _ _ Hlookup Hrec). congruence.
    + destruct (rows st !! other) as [[action' [|]]|] eqn:Hother.
      * rewrite (start_transition_preempt _ st row other action action') by done.
        apply (arbiterInv_recording _ row); cbn; try done.
        intros row' r Hlookup Hrec.
        destruct (decide (other = row')) as [<-|Hne1].
        { rewrite lookup_insert_eq in Hlookup. by simplify_eq. }
        rewrite lookup_insert_ne in Hlookup by done.
        destruct (decide (row = row')) as [|Hne2]; [done|].
        rewrite lookup_insert_ne in Hlookup by done.
        specialize (Hrows _ _ Hlookup Hrec). congruence.
      * rewrite (start_transition_stale _ st row other action);
          [|done..|by intros r; rewrite Hother; intros [= <-]].
        apply (arbiterInv_recording _ row); cbn; try done.
        intros row' r Hlookup Hrec.
        destruct (decide (row = row')) as [|Hne2]; [done|].
        rewrite lookup_insert_ne in Hlookup by done.
        specialize (Hrows _ _ Hlookup Hrec). simplify_eq.
      * rewrite (start_transition_stale _ st row other action);
          [|done..|by intros r; rewrite Hother].
        apply (arbiterInv_recording _ row); cbn; try done.
        intros row' r Hlookup Hrec.
        destruct (decide (row = row')) as [|Hne2]; [done|].
        rewrite lookup_insert_ne in Hlookup by done.
        specialize (Hrows _ _ Hlookup Hrec). simplify_eq.
  - rewrite (start_transition_free _ st row action) by auto.
    apply (arbiterInv_recording _ row); cbn; try done.
    intros row' r Hlookup Hrec.
    destruct (decide (row = row')) as [|Hne]; [done|].
    rewrite lookup_insert_ne in Hlookup by done.
    specialize (Hrows _ _ Hlookup Hrec). congruence.
Qed.

Lemma arbiterInv_step (ev : RecorderEvent) (st : State) :
  arbiterInv st → arbiterInv (recorderStep ev st).
Proof.
  intros Hinv. pose proof Hinv as (Hpend & Hflag & Hrows).
  unfold recorderStep, NESTED_UPDATE_LIMIT.
  destruct ev as [action|row|row|row|row event].
  - (* Mount *)
    unfold mountRow, keybindRowEffect. cbn.
    destruct (bool_decide (activeKeybindRecorderStop st = Some (nextRowId st)))
      eqn:Hslot; cbn; (rewrite flushRenders_nil by done);
      (split; [done|]); (split; [done|]); cbn;
      intros row' r Hlookup Hrec;
      (destruct (decide (nextRowId st = row')) as [<-|Hne];
       [ rewrite lookup_insert_eq in Hlookup; by simplify_eq
       | rewrite lookup_insert_ne in Hlookup by done ]).
    + specialize (Hrows _ _ Hlookup Hrec).
      apply bool_decide_eq_true_1 in Hslot. congruence.
    + eauto.
  - (* Unmount *)
    rewrite flushRenders_nil.
    2:{ unfold unmountRow. destruct (rows st !! row) as [[? []]|]; by cbn. }
    unfold unmountRow.
    destruct (rows st !! row) as [[action recording]|] eqn:Hrow; [|done].
    split; [by destruct recording|]. split; [by destruct recording|].
    intros row' r Hlookup Hrec.
    assert (rows st !! row' = Some r) as Hbefore.
    { destruct recording; cbn in Hlookup;
        by apply lookup_delete_Some in Hlookup as [_ ?]. }
    specialize (Hrows _ _ Hbefore Hrec). by destruct recording.
  - (* ClickRecord *)
    unfold clickRecord.
    destruct (rows st !! row) as [[action [|]]|] eqn:Hrow; cbn.
    + by apply (arbiterInv_stop _ st st row action).
    + by apply (arbiterInv_start _ st row action).
    + by rewrite flushRenders_nil.
  - (* ClickClear *)
    rewrite flushRenders_nil.
    2:{ unfold clickClear. destruct (rows st !! row) as [[[] ?]|]; by cbn. }
    unfold clickClear.
    destruct (rows st !! row) as [[[] ?]|]; [..|done];
      by apply (arbiterInv_frame st).
  - (* RowKeyDown *)
    unfold rowKeyDown.
    destruct (rows st !! row) as [[action [|]]|] eqn:Hrow; cbn;
      [|by rewrite flushRenders_nil..].
    unfold handleKeyDown.
    destruct (event_repeat event).
    { rewrite flushRenders_nil by done. by apply (arbiterInv_frame st). }
    destruct (strEq (event_key event) "Escape").
    { by apply (arbiterInv_stop _ st _ row action). }
    destruct (keybindFromEvent event) as [keybind|].
    + apply (arbiterInv_stop _ st _ row action); try done; by destruct action.
    + rewrite flushRenders_nil by done. by apply (arbiterInv_frame st).
Qed.


Lemma hotkey_listener_lifecycle_witness :
  stopHotkeyListener initialState = initialState
  ∧ startHotkeyListener runningWhileRecording = runningWhileRecording
  ∧ callsDuring runningWhileRecording (stopHotkeyListener runningWhileRecording) =
      [CallRemoveEventListener HandleHotkeys]
  ∧ activeKeybindRecorderStop (stopHotkeyListener runningWhileRecording) = None
  ∧ isRecordingKeybind
      (startHotkeyListener (stopHotkeyListener runningWhileRecording)) = false
  ∧ rows (startHotkeyListener (stopHotkeyListener runningWhileRecording))
    = rows runningWhileRecording.
Proof.
  destruct (hotkey_listener_lifecycle initialState) as (_ & _ & _ & Hstopped & _).
  destruct (hotkey_listener_lifecycle runningWhileRecording)
    as (_ & Hstarted & _ & _ & Hrunning).
  destruct Hrunning as (Hcalls & _ & Hslot & _ & _ & _ & _ & _ & Hflag & Hrows);
    [vm_compute; reflexivity|].
  split; [apply Hstopped; vm_compute; reflexivity|].
  split; [apply Hstarted; vm_compute; reflexivity|].
  split; [exact Hcalls|]. split; [exact Hslot|]. split; [exact Hflag|exact Hrows].
Defined.

(** The recorder at work: the mute row records, Escape cancels, Alt+M
    is captured, and a modifier alone keeps the row waiting. *)
Example recorder_scenarios :
  activeKeybindRecorderStop muteRowRecording = Some 0
  ∧ isRecordingKeybind muteRowRecording = true
  ∧ (let escaped := recorderStep (RowKeyDown 0 escapeKey) muteRowRecording in
     settings escaped = settings muteRowRecording
     ∧ activeKeybindRecorderStop escaped = None
     ∧ isRecordingKeybind escaped = false)
  ∧ (let captured := recorderStep (RowKeyDown 0 altMOnBody) muteRowRecording in
     fakeMuteHotkey (settings captured) = Some altM
     ∧ activeKeybindRecorderStop captured = None
     ∧ callsDuring muteRowRecording captured =
         [ CallPreventDefault; CallStopPropagation;
           CallRemoveEventListener (HandleKeyDown 0) ])
  ∧ (let waiting := recorderStep (RowKeyDown 0 shiftKey) muteRowRecording in
     activeKeybindRecorderStop waiting = Some 0
     ∧ fakeMuteHotkey (settings waiting) = None).
Proof. by vm_compute. Qed.

(** Stopping the listener resets the slot and the flag only: a row that
    was recording keeps its component state, and a row started after
    the stop finds no recorder to pre-empt. *)
Example stop_keeps_row_state :
  let stopped := stopHotkeyListener runningWhileRecording in
  let next := recorderStep (ClickRecord 1) stopped in
  rows stopped !! 0 = Some (mkRow Mute true)
  ∧ activeKeybindRecorderStop stopped = None
  ∧ isRecordingKeybind stopped = false
  ∧ callsDuring stopped next = [CallAddEventListener (HandleKeyDown 1)]
  ∧ rows next !! 0 = Some (mkRow Mute true)
  ∧ rows next !! 1 = Some (mkRow Deafen true).
Proof. by vm_compute. Qed.

(** * Further properties *)

(** ** Shortcut model *)

Lemma strEq_true (a b : string) : strEq a b = true ↔ a = b.
Proof. apply String.eqb_eq. Qed.

Lemma strEq_false (a b : string) : strEq a b = false ↔ a ≠ b.
Proof. apply String.eqb_neq. Qed.

Lemma boolEq_true (a b : bool) : boolEq a b = true ↔ a = b.
Proof. apply Bool.eqb_true_iff. Qed.

(** X1: [keybindFromEvent] yields no descriptor exactly for the four
    modifier keys, and any descriptor it yields copies key, code and
    the four modifier flags of the event. *)
Theorem keybindFromEvent_spec (e : KeyboardEvent) :
  (keybindFromEvent e = None ↔
     event_key e = "Shift" ∨ event_key e = "Control"
     ∨ event_key e = "Alt" ∨ event_key e = "Meta")
  ∧ ∀ keybind, keybindFromEvent e = Some keybind →
      keybind = mkKeybind (event_key e) (event_code e) (event_ctrlKey e)
                          (event_shiftKey e) (event_altKey e) (event_metaKey e).
Proof.
  rewrite <- elem_of_MODIFIER_KEYS.
  destruct (decide (event_key e ∈ MODIFIER_KEYS)) as [Hin|Hout].
  - rewrite (keybindFromEvent_modifier _ Hin). split; [done|]. by intros keybind.
  - rewrite (keybindFromEvent_other _ Hout). split; [|by intros keybind [= <-]].
    split; [done|]. by intros Hin.
Qed.

Lemma keybindFromEvent_spec_witness :
  keybindFromEvent shiftKey = None
  ∧ keybindFromEvent altMOnBody = Some altM.
Proof.
  split.
  - apply (proj1 (keybindFromEvent_spec shiftKey)). by left.
  - destruct (keybindFromEvent altMOnBody) as [keybind|] eqn:Hkeybind.
    + by rewrite (proj2 (keybindFromEvent_spec altMOnBody) keybind Hkeybind).
    + apply (proj1 (keybindFromEvent_spec altMOnBody)) in Hkeybind.
      vm_compute in Hkeybind.
      by destruct Hkeybind as [H|[H|[H|H]]].
Defined.

Lemma matchesKeybind_true (e : KeyboardEvent) (keybind : KeybindSetting) :
  matchesKeybind e (Some keybind) = true ↔
    (if truthy (code keybind) then event_code e = code keybind
     else event_key e = key keybind)
    ∧ event_ctrlKey e = ctrl keybind
    ∧ event_shiftKey e = shift keybind
    ∧ event_altKey e = alt keybind
    ∧ event_metaKey e = meta keybind.
Proof.
  unfold matchesKeybind.
  destruct (truthy (code keybind));
    (destruct (strEq _ _) eqn:Hkey;
     [apply strEq_true in Hkey|apply strEq_false in Hkey]); cbn [negb];
    rewrite ?andb_true_iff, ?boolEq_true; intuition congruence.
Qed.

(** X2: an event matches a descriptor exactly when the physical code
    (the logical key, when the descriptor has no code) is the
    descriptor's and each of the four modifier flags equals the
    descriptor's; an absent descriptor matches nothing. *)
Theorem matchesKeybind_exact (e : KeyboardEvent) (keybind : KeybindSetting) :
  matchesKeybind e None = false
  ∧ (matchesKeybind e (Some keybind) = true ↔
       (if truthy (code keybind) then event_code e = code keybind
        else event_key e = key keybind)
       ∧ event_ctrlKey e = ctrl keybind
       ∧ event_shiftKey e = shift keybind
       ∧ event_altKey e = alt keybind
       ∧ event_metaKey e = meta keybind).
Proof. split; [done|apply matchesKeybind_true]. Qed.

Lemma matchesKeybind_exact_witness :
  matchesKeybind altMInInput (Some altM) = true
  ∧ event_altKey shiftKey ≠ alt altM
  ∧ matchesKeybind shiftKey (Some altM) ≠ true.
Proof.
  destruct (matchesKeybind_exact altMInInput altM) as [_ Hin].
  destruct (matchesKeybind_exact shiftKey altM) as [_ Hshift].
  split; [apply Hin; by vm_compute|]. split; [by vm_compute|].
  intros Hmatch. apply Hshift in Hmatch as (_ & _ & _ & Halt & _).
  by vm_compute in Halt.
Defined.

(** X3: a descriptor recorded from an event with a physical code is
    matched by exactly the events with that code and those modifier
    flags, whatever their logical key, target or repeat state. *)
Theorem recorded_keybind_matches_by_code (e e' : KeyboardEvent) :
  event_key e ∉ MODIFIER_KEYS →
  event_code e ≠ "" →
  matchesKeybind e' (keybindFromEvent e) = true ↔
    event_code e' = event_code e
    ∧ event_ctrlKey e' = event_ctrlKey e
    ∧ event_shiftKey e' = event_shiftKey e
    ∧ event_altKey e' = event_altKey e
    ∧ event_metaKey e' = event_metaKey e.
Proof.
  intros Hout Hcode. rewrite (keybindFromEvent_other _ Hout).
  rewrite matchesKeybind_true. cbn [key code ctrl shift alt meta].
  by destruct (event_code e).
Qed.

Lemma recorded_keybind_matches_by_code_witness :
  matchesKeybind altMInInput (keybindFromEvent altMOnBody) = true.
Proof.
  apply (recorded_keybind_matches_by_code altMOnBody altMInInput).
  - rewrite elem_of_MODIFIER_KEYS. vm_compute. by intros [H|[H|[H|H]]].
  - vm_compute. by intros H.
  - by vm_compute.
Defined.

(** X4: the text of a present descriptor is the labels of its
    modifiers in the order Ctrl, Shift, Alt, Meta (Option and Cmd on a
    Mac), each followed by a plus sign, and then the label of the key. *)
Theorem formatKeybind_layout (IS_MAC : bool) (keybind : KeybindSetting) :
  formatKeybind IS_MAC (Some keybind) =
    (if ctrl keybind then "Ctrl+" else "")
    +:+ (if shift keybind then "Shift+" else "")
    +:+ (if alt keybind then if IS_MAC then "Option+" else "Alt+" else "")
    +:+ (if meta keybind then if IS_MAC then "Cmd+" else "Meta+" else "")
    +:+ formatKeyName (key keybind) (code keybind).
Proof.
  unfold formatKeybind, join.
  destruct (ctrl keybind), (shift keybind), (alt keybind), (meta keybind), IS_MAC;
    reflexivity.
Qed.

Lemma KEY_LABEL_OVERRIDES_None (k : string) :
  KEY_LABEL_OVERRIDES !! k = None ↔
    k ∉ [" "; "Spacebar"; "Escape"; "ArrowUp"; "ArrowDown"; "ArrowLeft";
         "ArrowRight"; "PageUp"; "PageDown"].
Proof. unfold KEY_LABEL_OVERRIDES. by rewrite <- not_elem_of_list_to_map. Qed.

Lemma KEY_LABEL_OVERRIDES_char (c : ascii) :
  c ≠ " "%char → KEY_LABEL_OVERRIDES !! String c "" = None.
Proof.
  intros Hc. apply KEY_LABEL_OVERRIDES_None.
  rewrite !not_elem_of_cons. repeat split; try done; [congruence|].
  apply not_elem_of_nil.
Qed.

(** X5: for key values made of code units below 128: the label of a
    key consisting of one character other than the space is that
    character in upper case, whatever the code; the label of a key that
    is neither in the override table nor a property name inherited from
    [Object.prototype], nor one character long, nor "Dead" or
    "Unidentified" is the key itself.  For any key value the code
    matters for "Dead" and "Unidentified" only. *)
Theorem formatKeyName_printable_and_fallback (key code code' : string) :
  (∀ c, key = String c "" → (nat_of_ascii c < 128)%nat → c ≠ " "%char →
     formatKeyName key code = String (upperChar c) "")
  ∧ (isAscii key = true → key ∉ OBJECT_PROTOTYPE_KEYS →
     KEY_LABEL_OVERRIDES !! key = None → String.length key ≠ 1 →
     key ≠ "Dead" → key ≠ "Unidentified" →
     formatKeyName key code = key)
  ∧ (key ≠ "Dead" → key ≠ "Unidentified" →
     formatKeyName key code = formatKeyName key code').
Proof.
  split; [|split].
  - intros c -> _ Hc. unfold formatKeyName.
    rewrite (KEY_LABEL_OVERRIDES_char _ Hc).
    assert (strEq (String c "") "Dead" = false) as -> by by apply strEq_false.
    assert (strEq (String c "") "Unidentified" = false) as -> by by apply strEq_false.
    reflexivity.
  - intros _ _ Hnone Hlen HDead HUnid. unfold formatKeyName. rewrite Hnone.
    apply strEq_false in HDead, HUnid. rewrite HDead, HUnid. cbn.
    by apply Nat.eqb_neq in Hlen as ->.
  - intros HDead HUnid. unfold formatKeyName.
    apply strEq_false in HDead, HUnid. by rewrite HDead, HUnid.
Qed.

Lemma formatKeyName_printable_and_fallback_witness :
  formatKeyName "q" "KeyA" = "Q"
  ∧ formatKeyName "F5" "F5" = "F5"
  ∧ formatKeyName "Enter" "Enter" = formatKeyName "Enter" "NumpadEnter".
Proof.
  destruct (formatKeyName_printable_and_fallback "q" "KeyA" "") as (Hchar & _ & _).
  destruct (formatKeyName_printable_and_fallback "F5" "F5" "") as (_ & Hraw & _).
  destruct (formatKeyName_printable_and_fallback "Enter" "Enter" "NumpadEnter")
    as (_ & _ & Hcode).
  split; [apply (Hchar "q"%char); [done|vm_compute; lia|done]|].
  split; [apply Hraw|by apply Hcode].
  - vm_compute. reflexivity.
  - intros Hin. apply list_elem_of_In in Hin. vm_compute in Hin.
    intuition discriminate.
  - vm_compute. reflexivity.
  - vm_compute. lia.
  - discriminate.
  - discriminate.
Defined.

Lemma startsWith_app (p s : string) : startsWith (p +:+ s) p = true.
Proof.
  unfold startsWith. induction p as [|c p IH]; simpl; [by destruct s|].
  by destruct (ascii_dec c c).
Qed.

Lemma slice_app (p s : string) : slice (String.length p) (p +:+ s) = s.
Proof. induction p as [|c p IH]; simpl; [by destruct s|done]. Qed.

(** X6: for the key values "Dead" and "Unidentified" the label comes
    from the physical code: a code "Key..." gives its remainder in
    upper case, "Digit..." its remainder, "Numpad..." its remainder
    after the word "Numpad" and a space. *)
Theorem formatKeyName_dead_key (key rest : string) :
  key = "Dead" ∨ key = "Unidentified" →
  formatKeyName key ("Key" +:+ rest) = toUpperCase rest
  ∧ formatKeyName key ("Digit" +:+ rest) = rest
  ∧ formatKeyName key ("Numpad" +:+ rest) = "Numpad " +:+ rest.
Proof.
  intros [-> | ->]; unfold formatKeyName;
    (replace (KEY_LABEL_OVERRIDES !! _) with (@None string) by by vm_compute);
    cbn [strEq String.eqb Ascii.eqb Bool.eqb orb andb];
    by rewrite ?(startsWith_app "Key"), ?(slice_app "Key"),
               ?(startsWith_app "Digit"), ?(slice_app "Digit"),
               ?(startsWith_app "Numpad"), ?(slice_app "Numpad").
Qed.

Lemma formatKeyName_dead_key_witness :
  formatKeyName "Dead" "KeyE" = "E"
  ∧ formatKeyName "Dead" "Digit6" = "6"
  ∧ formatKeyName "Dead" "Numpad6" = "Numpad 6".
Proof.
  destruct (formatKeyName_dead_key "Dead" "E") as (Hkey & _); [by left|].
  destruct (formatKeyName_dead_key "Dead" "6") as (_ & Hdigit & Hnumpad); [by left|].
  split; [exact Hkey|]. split; [exact Hdigit|exact Hnumpad].
Defined.

(** X7: [shouldIgnoreKeybindTarget] answers [true] for the
    text-editing surfaces and for nothing else; in particular a target
    that is no HTML element is never ignored. *)
Theorem shouldIgnoreKeybindTarget_iff (target : option EventTarget) :
  shouldIgnoreKeybindTarget target = true ↔
    ∃ t, target = Some t ∧ isTextEditingSurface t.
Proof.
  split.
  - destruct target as [t|]; [|done]. unfold shouldIgnoreKeybindTarget.
    destruct (instanceofHTMLElement (targetElement t)) eqn:Hhtml; [|done].
    cbn [negb]. intros Hignore. exists t. split; [done|]. split; [done|].
    destruct (closestContentEditable t) as [el|] eqn:Hclosest.
    + left. exists el. unfold closestContentEditable in Hclosest.
      apply find_some in Hclosest as [Hin Hattr].
      split; [by apply list_elem_of_In|]. by apply bool_decide_eq_true_1 in Hattr.
    + right. cbn in Hignore. rewrite !orb_true_iff, !strEq_true in Hignore. tauto.
  - intros (t & -> & Hsurface). by apply shouldIgnoreKeybindTarget_surface.
Qed.

Lemma shouldIgnoreKeybindTarget_iff_witness :
  shouldIgnoreKeybindTarget (event_target altMInInput) = true
  ∧ ¬ ∃ t, event_target altMOnBody = Some t ∧ isTextEditingSurface t.
Proof.
  split.
  - apply (proj2 (shouldIgnoreKeybindTarget_iff (event_target altMInInput))).
    eexists. split; [reflexivity|]. split; [reflexivity|].
    right. left. by vm_compute.
  - intros Hsurface.
    apply (proj2 (shouldIgnoreKeybindTarget_iff (event_target altMOnBody))) in Hsurface.
    by vm_compute in Hsurface.
Defined.

(** ** Fake-state synchronizer *)

Lemma sync_frame (channel : Channel) (env : Env) (nextFake : bool) (st : State) :
  shadowSlot (otherChannel channel) (sync channel env nextFake st)
    = shadowSlot (otherChannel channel) st
  ∧ settings (sync channel env nextFake st) = settings st
  ∧ activeKeybindRecorderStop (sync channel env nextFake st)
      = activeKeybindRecorderStop st
  ∧ isRecordingKeybind (sync channel env nextFake st) = isRecordingKeybind st
  ∧ hotkeyListenerActive (sync channel env nextFake st) = hotkeyListenerActive st
  ∧ rows (sync channel env nextFake st) = rows st
  ∧ nextRowId (sync channel env nextFake st) = nextRowId st
  ∧ pendingRenders (sync channel env nextFake st) = pendingRenders st.
Proof.
  destruct channel, nextFake; cbn;
    unfold syncFakeMute, syncFakeDeafen, setLocalMute, setLocalDeaf; cbn;
    sync_cases; done.
Qed.

Lemma setterCalls_channel (channel : Channel) (env : Env) (value : option bool)
    (c : Call) :
  c ∈ setterCalls channel env value →
  setterChannel c = Some channel ∧ setterValue c = value.
Proof.
  unfold setterCalls.
  destruct value as [v|], (getDefaultMediaConnection env) as [connection|];
    try by intros ?%elem_of_nil.
  destruct (hasSetter channel connection); [|by intros ?%elem_of_nil].
  intros ->%list_elem_of_singleton. by destruct channel.
Qed.

(** X8: a synchronizer works on its own channel only: it leaves the
    other channel's shadow slot, the settings, the recorder state and
    the listener flag as they are, and every setter call it makes is
    the setter of its channel. *)
Theorem sync_touches_own_channel_only (channel : Channel) (env : Env)
    (nextFake : bool) (st : State) :
  shadowSlot (otherChannel channel) (sync channel env nextFake st)
    = shadowSlot (otherChannel channel) st
  ∧ settings (sync channel env nextFake st) = settings st
  ∧ activeKeybindRecorderStop (sync channel env nextFake st)
      = activeKeybindRecorderStop st
  ∧ isRecordingKeybind (sync channel env nextFake st) = isRecordingKeybind st
  ∧ hotkeyListenerActive (sync channel env nextFake st) = hotkeyListenerActive st
  ∧ rows (sync channel env nextFake st) = rows st
  ∧ Forall (λ c, isSetterCall c = true → setterChannel c = Some channel)
           (callsDuring st (sync channel env nextFake st)).
Proof.
  pose proof (sync_frame channel env nextFake st)
    as (Hslot & Hsettings & Hactive & Hflag & Hlistener & Hrows & _).
  repeat (split; [done|]).
  rewrite sync_callsDuring. apply Forall_cons. split; [done|].
  apply Forall_forall. intros c Hc _.
  by destruct (setterCalls_channel _ _ _ _ Hc).
Qed.

(** X9: while the voice state is unavailable [sync(true)] stores
    nothing, and the [sync(false)] that follows commands the flag
    observed at that later time if there is one, and nothing at all
    otherwise.  The voice state is unavailable when the user's identity
    is missing or empty, when the store is missing, or when the store
    has no entry for the user. *)
Theorem sync_enable_without_voice_state (channel : Channel) (env1 env2 : Env)
    (st : State) :
  (getSelfVoiceState env1 = None ↔
     currentUserId env1 = None ∨ currentUserId env1 = Some ""
     ∨ voiceStateStore env1 = None
     ∨ ∃ id store, currentUserId env1 = Some id ∧ voiceStateStore env1 = Some store
                   ∧ store !! id = None)
  ∧ (getSelfVoiceState env1 = None →
     let enabled := sync channel env1 true st in
     shadowSlot channel enabled = None
     ∧ callsDuring enabled (sync channel env2 false enabled) =
         CallSync channel false
           :: setterCalls channel env2 (realFlag channel <$> getSelfVoiceState env2)).
Proof.
  split.
  - unfold getSelfVoiceState.
    destruct (currentUserId env1) as [[|c id]|], (voiceStateStore env1) as [store|];
      cbn; split; try done; try tauto.
    + intros Hnone. do 3 right. by exists (String c id), store.
    + intros [H|[H|[H|(id0 & store0 & [= <-] & [= <-] & H)]]]; done.
  - intros Hvoice enabled. subst enabled.
    assert (shadowSlot channel (sync channel env1 true st) = None) as Hslot.
    { by rewrite sync_shadowSlot, Hvoice. }
    split; [done|]. rewrite sync_callsDuring. unfold commandedValue.
    by rewrite Hslot.
Qed.

Lemma sync_enable_without_voice_state_witness :
  shadowSlot Mute (sync Mute sampleEnvNoVoice true initialState) = None
  ∧ callsDuring (sync Mute sampleEnvNoVoice true initialState)
      (sync Mute sampleEnv false (sync Mute sampleEnvNoVoice true initialState)) =
      [CallSync Mute false; CallSetSelfMute 8 true].
Proof.
  apply (proj2 (sync_enable_without_voice_state Mute sampleEnvNoVoice sampleEnv
                  initialState)).
  apply (proj2 (proj1 (sync_enable_without_voice_state Mute sampleEnvNoVoice sampleEnv
                         initialState))).
  by left.
Defined.

(** ** Choice of the engine connection *)

Lemma connectionLoop_None (connections : list (option Connection)) :
  connectionLoop None connections = None ↔ actualConnections connections = [].
Proof.
  rewrite connectionLoop_chosen.
  destruct (actualConnections connections) as [|c rest]; cbn; [done|].
  destruct (strEq (context c) "default"); [done|].
  by destruct (List.find _ rest).
Qed.

(** X10: a connection is resolved exactly when the engine has a
    collection with at least one connection in it; the resolved
    connection is an entry of the collection, and its context differs
    from "default" only when no connection of the collection has that
    context. *)
Theorem getDefaultMediaConnection_resolves (env : Env) :
  (getDefaultMediaConnection env = None ↔
     mediaEngineConnections env = None
     ∨ ∃ connections, mediaEngineConnections env = Some connections
                      ∧ actualConnections connections = [])
  ∧ ∀ connection, getDefaultMediaConnection env = Some connection →
      ∃ connections, mediaEngineConnections env = Some connections
        ∧ Some connection ∈ connections
        ∧ (context connection ≠ "default" →
           ∀ c, Some c ∈ connections → context c ≠ "default").
Proof.
  unfold getDefaultMediaConnection.
  destruct (mediaEngineConnections env) as [connections|]; [|split; [tauto|done]].
  split.
  - rewrite connectionLoop_None. split.
    + intros Hnone. right. by exists connections.
    + by intros [H|(connections' & [= <-] & H)].
  - intros connection. rewrite connectionLoop_chosen. intros Hchosen.
    exists connections. split; [done|].
    assert (∀ c, Some c ∈ connections ↔ c ∈ actualConnections connections) as Hactual.
    { intros c. unfold actualConnections. rewrite list_elem_of_omap.
      split; [by exists (Some c)|]. by intros ([c'|] & Hin & [= <-]). }
    destruct (List.find _ (actualConnections connections)) as [c|] eqn:Hfind.
    + simplify_eq. apply find_some in Hfind as [Hin Hdefault].
      split; [by apply Hactual, list_elem_of_In|].
      by apply strEq_true in Hdefault.
    + destruct (actualConnections connections) as [|c rest] eqn:Hlist; [done|].
      cbn in Hchosen. simplify_eq. split; [apply Hactual; left|].
      intros _ c' Hc%Hactual. apply list_elem_of_In in Hc.
      apply (find_none _ _ Hfind) in Hc. by apply strEq_false in Hc.
Qed.

Lemma getDefaultMediaConnection_resolves_witness :
  ∃ connections, mediaEngineConnections sampleEnv = Some connections
    ∧ Some (mkConnection 8 "default" true true) ∈ connections.
Proof.
  destruct (proj2 (getDefaultMediaConnection_resolves sampleEnv)
              (mkConnection 8 "default" true true))
    as (connections & Hengine & Hin & _); [by vm_compute|].
  by exists connections.
Defined.

(** ** Toggle controller and hotkey dispatcher *)

Lemma clickFake_unfold (channel : Channel) (onChangeOnWrite : bool) (env : Env)
    (st : State) :
  clickFake channel onChangeOnWrite env st =
    let next := negb (fakeFlag channel st) in
    let written := withFakeFlag channel next st in
    if onChangeOnWrite
    then sync channel env next (sync channel env next written)
    else sync channel env next written.
Proof. by destruct channel, onChangeOnWrite. Qed.

Lemma commandedValue_slot (channel : Channel) (env : Env) (nextFake : bool)
    (st st' : State) :
  shadowSlot channel st' = shadowSlot channel st →
  commandedValue channel env nextFake st' = commandedValue channel env nextFake st.
Proof. unfold commandedValue. by intros ->. Qed.

(** What a click on a panel button does, field by field. *)
Lemma clickFake_spec (channel : Channel) (onChangeOnWrite : bool) (env : Env)
    (st : State) :
  let next := negb (fakeFlag channel st) in
  let clicked := clickFake channel onChangeOnWrite env st in
  settings clicked = settings (withFakeFlag channel next st)
  ∧ shadowSlot channel clicked
      = (if next then realFlag channel <$> getSelfVoiceState env else None)
  ∧ shadowSlot (otherChannel channel) clicked = shadowSlot (otherChannel channel) st
  ∧ activeKeybindRecorderStop clicked = activeKeybindRecorderStop st
  ∧ isRecordingKeybind clicked = isRecordingKeybind st
  ∧ hotkeyListenerActive clicked = hotkeyListenerActive st
  ∧ rows clicked = rows st
  ∧ nextRowId clicked = nextRowId st
  ∧ pendingRenders clicked = pendingRenders st
  ∧ trace clicked =
      trace st
      ++ (if onChangeOnWrite
          then CallSync channel next
                 :: setterCalls channel env (commandedValue channel env next st)
          else [])
      ++ CallSync channel next
           :: setterCalls channel env
                (if onChangeOnWrite
                 then if next then Some false
                      else realFlag channel <$> getSelfVoiceState env
                 else commandedValue channel env next st).
Proof.
  intros next clicked. subst clicked. rewrite clickFake_unfold. cbn zeta.
  fold next. set (written := withFakeFlag channel next st).
  assert (shadowSlot channel written = shadowSlot channel st
          ∧ shadowSlot (otherChannel channel) written
              = shadowSlot (otherChannel channel) st
          ∧ activeKeybindRecorderStop written = activeKeybindRecorderStop st
          ∧ isRecordingKeybind written = isRecordingKeybind st
          ∧ hotkeyListenerActive written = hotkeyListenerActive st
          ∧ rows written = rows st
          ∧ nextRowId written = nextRowId st
          ∧ pendingRenders written = pendingRenders st
          ∧ trace written = trace st)
    as (Hw1 & Hw2 & Hw3 & Hw4 & Hw5 & Hw6 & Hw7 & Hw8 & Hw9).
  { subst written. by destruct channel. }
  pose proof (sync_frame channel env next written)
    as (Hf1 & Hf2 & Hf3 & Hf4 & Hf5 & Hf6 & Hf7 & Hf8).
  pose proof (sync_shadowSlot channel env next written) as Hs.
  pose proof (sync_trace channel env next written) as Ht.
  rewrite (commandedValue_slot _ _ _ st written Hw1) in Ht.
  destruct onChangeOnWrite.
  - set (once := sync channel env next written) in *.
    pose proof (sync_frame channel env next once)
      as (Hg1 & Hg2 & Hg3 & Hg4 & Hg5 & Hg6 & Hg7 & Hg8).
    pose proof (sync_shadowSlot channel env next once) as Hs'.
    pose proof (sync_trace channel env next once) as Ht'.
    assert (commandedValue channel env next once
            = if next then Some false
              else realFlag channel <$> getSelfVoiceState env) as Hcv.
    { unfold commandedValue. rewrite Hs. by destruct next. }
    rewrite Hcv, Ht, Hw9 in Ht'.
    repeat split; try congruence.
    rewrite Ht'. by rewrite <- app_assoc.
  - repeat split; try congruence. by rewrite Ht, Hw9.
Qed.

Lemma handleHotkeys_live (onChangeOnWrite : bool) (env : Env)
    (event : KeyboardEvent) (st : State) :
  hotkeysLive event st →
  handleHotkeys onChangeOnWrite env event st =
    let muteMatches := matchesKeybind event (fakeMuteHotkey (settings st)) in
    let deafenMatches := matchesKeybind event (fakeDeafenHotkey (settings st)) in
    let st1 := if muteMatches then clickFakeMute onChangeOnWrite env st else st in
    let st2 := if deafenMatches then clickFakeDeafen onChangeOnWrite env st1 else st1 in
    if muteMatches || deafenMatches
    then emit CallStopPropagation (emit CallPreventDefault st2)
    else st2.
Proof.
  intros (Hprevented & Hrepeat & Hrecording & Htarget).
  unfold handleHotkeys. rewrite Hprevented, Hrepeat, Hrecording, Htarget.
  cbn [orb].
  by destruct (matchesKeybind event (fakeMuteHotkey (settings st))),
              (matchesKeybind event (fakeDeafenHotkey (settings st))).
Qed.

(** X12: past its guards the dispatcher runs, for each shortcut the
    event matches, the toggle of the corresponding panel button, fake
    mute before fake deafen, and then suppresses the event once; when
    no shortcut matches it changes nothing and leaves the event alone.
    Both toggles run when both shortcuts match. *)
Theorem handleHotkeys_runs_button_toggles (onChangeOnWrite : bool) (env : Env)
    (event : KeyboardEvent) (st : State) :
  hotkeysLive event st →
  let muteMatches := matchesKeybind event (fakeMuteHotkey (settings st)) in
  let deafenMatches := matchesKeybind event (fakeDeafenHotkey (settings st)) in
  let handled := handleHotkeys onChangeOnWrite env event st in
  (muteMatches = false → deafenMatches = false → handled = st)
  ∧ (muteMatches = true → deafenMatches = false →
     handled = emit CallStopPropagation
                 (emit CallPreventDefault (clickFakeMute onChangeOnWrite env st)))
  ∧ (muteMatches = false → deafenMatches = true →
     handled = emit CallStopPropagation
                 (emit CallPreventDefault (clickFakeDeafen onChangeOnWrite env st)))
  ∧ (muteMatches = true → deafenMatches = true →
     handled = emit CallStopPropagation
                 (emit CallPreventDefault
                    (clickFakeDeafen onChangeOnWrite env
                       (clickFakeMute onChangeOnWrite env st))))
  ∧ fakeMute (settings handled) = xorb (fakeMute (settings st)) muteMatches
  ∧ fakeDeafen (settings handled) = xorb (fakeDeafen (settings st)) deafenMatches.
Proof.
  intros Hlive muteMatches deafenMatches handled. subst handled.
  rewrite (handleHotkeys_live _ _ _ _ Hlive). cbn zeta.
  fold muteMatches deafenMatches.
  pose proof (clickFake_spec Mute onChangeOnWrite env st) as (HsM & _).
  pose proof (clickFake_spec Deafen onChangeOnWrite env st) as (HsD & _).
  pose proof (clickFake_spec Deafen onChangeOnWrite env
                (clickFakeMute onChangeOnWrite env st)) as (HsMD & _).
  cbn [clickFake fakeFlag withFakeFlag] in HsM, HsD, HsMD.
  destruct muteMatches, deafenMatches; cbn [orb];
    (repeat split; try done);
    cbn [settings emit]; rewrite ?HsMD, ?HsM, ?HsD; cbn;
    rewrite ?HsM; cbn; by rewrite ?xorb_false_r, ?xorb_true_r.
Qed.

Lemma handleHotkeys_runs_button_toggles_witness :
  handleHotkeys false sampleEnv altMOnBody sampleConfigured =
    emit CallStopPropagation
      (emit CallPreventDefault (clickFakeMute false sampleEnv sampleConfigured)).
Proof.
  destruct (handleHotkeys_runs_button_toggles false sampleEnv altMOnBody
              sampleConfigured) as (_ & Hmute & _); [by vm_compute|].
  apply Hmute; by vm_compute.
Defined.

Lemma callsDuring_trans (a b c : State) (l1 l2 : list Call) :
  trace b = trace a ++ l1 → trace c = trace b ++ l2 →
  trace c = trace a ++ l1 ++ l2.
Proof. intros -> ->. by rewrite <- app_assoc. Qed.

(** X13: with a store that does not call back on the plugin's own
    writes, two clicks on a panel button, the first one taken while the
    fake flag is off, leave the flag off and the shadow slot unset, and
    the second click ends with the setter call that carries the real
    flag observed at the first click. *)
Theorem click_twice_restores (channel : Channel) (env1 env2 : Env) (st : State)
    (voiceState : VoiceState) (connection : Connection) :
  fakeFlag channel st = false →
  getSelfVoiceState env1 = Some voiceState →
  getDefaultMediaConnection env2 = Some connection →
  hasSetter channel connection = true →
  let on := clickFake channel false env1 st in
  let off := clickFake channel false env2 on in
  fakeFlag channel on = true
  ∧ shadowSlot channel on = Some (realFlag channel voiceState)
  ∧ fakeFlag channel off = false
  ∧ shadowSlot channel off = None
  ∧ callsDuring on off =
      [CallSync channel false;
       setterCall channel connection (realFlag channel voiceState)].
Proof.
  intros Hflag Hvoice Hconn Hsetter on off.
  pose proof (clickFake_spec channel false env1 st)
    as (Hs1 & Hslot1 & _). fold on in Hs1, Hslot1.
  rewrite Hflag, Hvoice in Hslot1. cbn in Hslot1.
  assert (fakeFlag channel on = true) as Hon.
  { unfold fakeFlag. rewrite Hs1, Hflag. by destruct channel. }
  pose proof (clickFake_spec channel false env2 on)
    as (Hs2 & Hslot2 & _ & _ & _ & _ & _ & _ & _ & Htrace2).
  fold off in Hs2, Hslot2, Htrace2. rewrite Hon in Hs2, Hslot2, Htrace2.
  cbn in Hslot2, Htrace2.
  split; [done|]. split; [done|]. split.
  { unfold fakeFlag. rewrite Hs2. by destruct channel. }
  split; [done|]. apply callsDuring_app. rewrite Htrace2.
  unfold commandedValue, setterCalls. by rewrite Hslot1, Hconn, Hsetter.
Qed.

Lemma click_twice_restores_witness :
  let on := clickFake Mute false sampleEnv initialState in
  let off := clickFake Mute false sampleEnvUnmuted on in
  fakeFlag Mute off = false
  ∧ callsDuring on off = [CallSync Mute false; CallSetSelfMute 8 true].
Proof.
  intros on off.
  destruct (click_twice_restores Mute sampleEnv sampleEnvUnmuted initialState
              (mkVoiceState true false) (mkConnection 8 "default" true true))
    as (_ & _ & Hoff & _ & Hcalls); by vm_compute.
Defined.

(** X14: with a store that calls [onChange] on the plugin's own writes
    a click enters the synchronizer twice.  On a disabling click the
    first entry restores the stored flag and clears the slot, so the
    second one commands the flag observed at that moment: the last
    setter call carries the currently observed flag. *)
Theorem click_with_notifying_store (channel : Channel) (env : Env) (st : State)
    (last : bool) (voiceState : VoiceState) (connection : Connection) :
  List.filter isSyncCall (callsDuring st (clickFake channel true env st)) =
    [ CallSync channel (negb (fakeFlag channel st));
      CallSync channel (negb (fakeFlag channel st)) ]
  ∧ (fakeFlag channel st = true →
     shadowSlot channel st = Some last →
     getSelfVoiceState env = Some voiceState →
     getDefaultMediaConnection env = Some connection →
     hasSetter channel connection = true →
     callsDuring st (clickFake channel true env st) =
       [ CallSync channel false; setterCall channel connection last;
         CallSync channel false;
         setterCall channel connection (realFlag channel voiceState) ]).
Proof.
  pose proof (clickFake_spec channel true env st)
    as (_ & _ & _ & _ & _ & _ & _ & _ & _ & Htrace).
  cbn zeta in Htrace. apply callsDuring_app in Htrace. rewrite Htrace.
  split.
  - assert (∀ v, List.filter isSyncCall (setterCalls channel env v) = []) as Hnone.
    { intros v. unfold setterCalls.
      destruct v, (getDefaultMediaConnection env) as [c|]; try done.
      destruct (hasSetter channel c); by destruct channel. }
    rewrite List.filter_app. cbn [List.filter isSyncCall]. by rewrite !Hnone.
  - intros Hflag Hslot Hvoice Hconn Hsetter. rewrite Hflag. cbn.
    unfold commandedValue, setterCalls. rewrite Hslot, Hvoice, Hconn, Hsetter.
    reflexivity.
Qed.

Lemma click_with_notifying_store_witness :
  let on := clickFake Mute true sampleEnv initialState in
  callsDuring on (clickFake Mute true sampleEnvUnmuted on) =
    [ CallSync Mute false; CallSetSelfMute 8 true;
      CallSync Mute false; CallSetSelfMute 8 false ].
Proof.
  intros on.
  apply (proj2 (click_with_notifying_store Mute sampleEnvUnmuted on true
                  (mkVoiceState false false) (mkConnection 8 "default" true true)));
    by vm_compute.
Defined.

(** X15: an enabling click never commands anything but [false], and
    only on the setter of its channel, whichever way the store behaves. *)
Theorem enabling_click_commands_false (channel : Channel) (onChangeOnWrite : bool)
    (env : Env) (st : State) :
  fakeFlag channel st = false →
  Forall (λ c, isSetterCall c = true →
               setterChannel c = Some channel ∧ setterValue c = Some false)
         (callsDuring st (clickFake channel onChangeOnWrite env st)).
Proof.
  intros Hflag.
  pose proof (clickFake_spec channel onChangeOnWrite env st)
    as (_ & _ & _ & _ & _ & _ & _ & _ & _ & Htrace).
  cbn zeta in Htrace. apply callsDuring_app in Htrace. rewrite Htrace, Hflag.
  cbn [negb]. unfold commandedValue.
  assert (Forall (λ c, isSetterCall c = true →
                       setterChannel c = Some channel ∧ setterValue c = Some false)
                 (CallSync channel true :: setterCalls channel env (Some false)))
    as Hone.
  { apply Forall_cons. split; [done|]. apply Forall_forall. intros c Hc _.
    by apply setterCalls_channel in Hc. }
  apply Forall_app. split; [|by destruct onChangeOnWrite].
  destruct onChangeOnWrite; [done|apply Forall_nil_2].
Qed.

Lemma enabling_click_commands_false_witness :
  Forall (λ c, isSetterCall c = true →
               setterChannel c = Some Deafen ∧ setterValue c = Some false)
         (callsDuring initialState (clickFake Deafen true sampleEnv initialState)).
Proof. by apply (enabling_click_commands_false Deafen true sampleEnv initialState). Defined.

(** X16: the earlier revision of the panel buttons only wrote the
    setting.  Under a store that calls [onChange] on that write it did
    exactly what the present buttons do under a store that does not;
    under a store that does not it never reached the synchronizer or
    the engine. *)
Theorem legacy_click_relies_on_onChange (env : Env) (st : State) :
  clickFakeMute_legacy true env st = clickFakeMute false env st
  ∧ clickFakeDeafen_legacy true env st = clickFakeDeafen false env st
  ∧ callsDuring st (clickFakeMute_legacy false env st) = []
  ∧ callsDuring st (clickFakeDeafen_legacy false env st) = []
  ∧ lastSelfMute (clickFakeMute_legacy false env st) = lastSelfMute st
  ∧ lastSelfDeaf (clickFakeDeafen_legacy false env st) = lastSelfDeaf st.
Proof.
  repeat split; unfold callsDuring; cbn; by rewrite ?drop_all.
Qed.

(** ** The plugin as a whole *)

Lemma filter_no_listener (l : Listener) (calls : list Call) :
  Forall (λ c, isListenerCall c = false) calls →
  List.filter (isAddOf l) calls = [] ∧ List.filter (isRemoveOf l) calls = [].
Proof.
  induction 1 as [|c calls Hc _ [IHa IHr]]; [done|].
  cbn. rewrite IHa, IHr. by destruct c.
Qed.

Lemma benign_refl (st : State) : benign st st.
Proof.
  repeat (split; [done|]). split; [|done].
  exists []. by rewrite app_nil_r.
Qed.

Lemma benign_trans (a b c : State) : benign a b → benign b c → benign a c.
Proof.
  intros (Hp & Ha & Hf & Hl & Hr & Hn & (l1 & Ht1 & Hl1) & Hs)
         (Hp' & Ha' & Hf' & Hl' & Hr' & Hn' & (l2 & Ht2 & Hl2) & Hs').
  repeat (split; [congruence|]). split; [|auto].
  exists (l1 ++ l2). split; [by rewrite Ht2, Ht1, <- app_assoc|].
  by apply Forall_app.
Qed.

Lemma benign_emit (c : Call) (st : State) :
  isListenerCall c = false → benign st (emit c st).
Proof.
  intros Hc. repeat (split; [done|]). split; [|done].
  exists [c]. split; [done|]. by apply Forall_singleton.
Qed.

Lemma benign_settings_hotkeys (s : Settings) (st : State) :
  fakeMute s = fakeMute (settings st) →
  fakeDeafen s = fakeDeafen (settings st) →
  benign st (set_settings s st).
Proof.
  intros Hm Hd. repeat (split; [done|]). split.
  - exists []. by rewrite app_nil_r.
  - intros Hslots [] Hflag.
    + apply (Hslots Mute). cbn in *. congruence.
    + apply (Hslots Deafen). cbn in *. congruence.
Qed.

Lemma setterCalls_no_listener (channel : Channel) (env : Env) (value : option bool) :
  Forall (λ c, isListenerCall c = false) (setterCalls channel env value).
Proof.
  unfold setterCalls.
  destruct value, (getDefaultMediaConnection env) as [c|]; try done.
  destruct (hasSetter channel c); [|done].
  apply Forall_singleton. by destruct channel.
Qed.

Lemma benign_clickFake (channel : Channel) (onChangeOnWrite : bool) (env : Env)
    (st : State) :
  benign st (clickFake channel onChangeOnWrite env st).
Proof.
  pose proof (clickFake_spec channel onChangeOnWrite env st)
    as (Hs & Hslot & Hother & Ha & Hf & Hl & Hr & Hn & Hp & Ht).
  cbn zeta in *.
  repeat (split; [done|]). split.
  - eexists. split; [exact Ht|].
    apply Forall_app. split.
    + destruct onChangeOnWrite; [|done].
      apply Forall_cons. split; [done|apply setterCalls_no_listener].
    + apply Forall_cons. split; [done|apply setterCalls_no_listener].
  - intros Hslots ch Hflag.
    destruct (decide (ch = channel)) as [->|Hne].
    + rewrite Hslot. unfold fakeFlag in Hflag. rewrite Hs in Hflag.
      assert (negb (fakeFlag channel st) = false) as -> by by destruct channel.
      done.
    + assert (ch = otherChannel channel) as -> by by destruct ch, channel.
      rewrite Hother. apply Hslots. unfold fakeFlag in *. rewrite Hs in Hflag.
      by destruct channel.
Qed.

Lemma benign_handleHotkeys (onChangeOnWrite : bool) (env : Env)
    (event : KeyboardEvent) (st : State) :
  benign st (handleHotkeys onChangeOnWrite env event st).
Proof.
  destruct (event_defaultPrevented event || event_repeat event
            || isRecordingKeybind st) eqn:Hguard.
  { unfold handleHotkeys. rewrite Hguard. apply benign_refl. }
  destruct (shouldIgnoreKeybindTarget (event_target event)) eqn:Htarget.
  { unfold handleHotkeys. rewrite Hguard, Htarget. apply benign_refl. }
  apply orb_false_iff in Hguard as [Hguard Hrecording].
  apply orb_false_iff in Hguard as [Hprevented Hrepeat].
  rewrite handleHotkeys_live by done. cbn zeta.
  set (st1 := if matchesKeybind event (fakeMuteHotkey (settings st))
              then clickFakeMute onChangeOnWrite env st else st).
  assert (benign st st1) as H1.
  { subst st1. destruct (matchesKeybind _ _); [|apply benign_refl].
    apply (benign_clickFake Mute). }
  set (st2 := if matchesKeybind event (fakeDeafenHotkey (settings st))
              then clickFakeDeafen onChangeOnWrite env st1 else st1).
  assert (benign st1 st2) as H2.
  { subst st2. destruct (matchesKeybind _ (fakeDeafenHotkey _)); [|apply benign_refl].
    apply (benign_clickFake Deafen). }
  pose proof (benign_trans _ _ _ H1 H2) as H12.
  destruct (_ || _); [|done].
  eapply benign_trans; [exact H12|].
  eapply benign_trans; by apply benign_emit.
Qed.

Lemma programInv_benign (st st' : State) :
  programInv st → benign st st' → programInv st'.
Proof.
  intros (Hpend & Hflag & Hfresh & Hslots & Hlisteners)
         (Hp & Ha & Hf & Hl & Hr & Hn & (calls & Ht & Hcalls) & Hs).
  split; [by rewrite Hp|]. split; [by rewrite Hf, Ha|].
  split; [by rewrite Hr, Hn|]. split; [auto|].
  intros l. destruct (filter_no_listener l calls Hcalls) as [Hadd Hrem].
  unfold registrations, removals. rewrite Ht, !List.filter_app, Hadd, Hrem, !app_nil_r.
  specialize (Hlisteners l). unfold registrations, removals in Hlisteners.
  rewrite Hlisteners. f_equal. unfold attachedCount, attached.
  destruct l; by rewrite ?Hl, ?Hr.
Qed.

(** The invariant after a step whose calls and final state are known. *)
Lemma programInv_intro (st st' : State) (calls : list Call) :
  programInv st →
  pendingRenders st' = [] →
  isRecordingKeybind st' = bool_decide (activeKeybindRecorderStop st' ≠ None) →
  (∀ row, nextRowId st' ≤ row → rows st' !! row = None) →
  lastSelfMute st' = lastSelfMute st →
  lastSelfDeaf st' = lastSelfDeaf st →
  fakeMute (settings st') = fakeMute (settings st) →
  fakeDeafen (settings st') = fakeDeafen (settings st) →
  trace st' = trace st ++ calls →
  (∀ l, length (List.filter (isAddOf l) calls) + attachedCount l st
        = length (List.filter (isRemoveOf l) calls) + attachedCount l st') →
  programInv st'.
Proof.
  intros (_ & _ & _ & Hslots & Hlisteners) Hp Hf Hfresh HsM HsD HfM HfD Ht Hcalls.
  split; [done|]. split; [done|]. split; [done|]. split.
  - intros [] Hflag; cbn in *; [rewrite HsM|rewrite HsD];
      [apply (Hslots Mute)|apply (Hslots Deafen)]; cbn; congruence.
  - intros l. specialize (Hlisteners l). specialize (Hcalls l).
    unfold registrations, removals in *.
    rewrite Ht, !List.filter_app, !length_app. lia.
Qed.

Lemma attachedCount_attachedIn (l : Listener) (st : State) :
  attachedCount l st = attachedIn l (hotkeyListenerActive st) (rows st).
Proof.
  unfold attachedCount, attached, attachedIn. destruct l; [done|].
  by destruct (rows st !! row).
Qed.

Lemma listenerEqb_row (row : RowId) (l : Listener) :
  listenerEqb (HandleKeyDown row) l = true ↔ l = HandleKeyDown row.
Proof.
  destruct l as [|row']; cbn; [done|].
  rewrite Nat.eqb_eq. split; [by intros ->|by intros [= ->]].
Qed.

Lemma attachedIn_insert (l : Listener) (h : bool) (m : gmap RowId Row)
    (row : RowId) (r : Row) :
  attachedIn l h (<[row := r]> m) =
    if listenerEqb (HandleKeyDown row) l then (if isRecording r then 1 else 0)
    else attachedIn l h m.
Proof.
  destruct l as [|row']; cbn; [done|].
  destruct (Nat.eqb_spec row row') as [->|Hne].
  - by rewrite lookup_insert_eq.
  - by rewrite lookup_insert_ne.
Qed.

Lemma attachedIn_delete (l : Listener) (h : bool) (m : gmap RowId Row) (row : RowId) :
  attachedIn l h (delete row m) =
    if listenerEqb (HandleKeyDown row) l then 0 else attachedIn l h m.
Proof.
  destruct l as [|row']; cbn; [done|].
  destruct (Nat.eqb_spec row row') as [->|Hne].
  - by rewrite lookup_delete_eq.
  - by rewrite lookup_delete_ne.
Qed.

Lemma attachedIn_row (h : bool) (m : gmap RowId Row) (row : RowId) (l : Listener)
    (r : Row) :
  m !! row = Some r → listenerEqb (HandleKeyDown row) l = true →
  attachedIn l h m = if isRecording r then 1 else 0.
Proof. intros Hrow ->%listenerEqb_row. cbn. by rewrite Hrow. Qed.

Lemma attachedIn_fresh (h : bool) (m : gmap RowId Row) (row : RowId) (l : Listener) :
  m !! row = None → listenerEqb (HandleKeyDown row) l = true → attachedIn l h m = 0.
Proof. intros Hrow ->%listenerEqb_row. cbn. by rewrite Hrow. Qed.

Lemma listenerEqb_distinct (row row' : RowId) (l : Listener) :
  row ≠ row' → listenerEqb (HandleKeyDown row) l = true →
  listenerEqb (HandleKeyDown row') l = false.
Proof. intros Hne ->%listenerEqb_row. cbn. by apply Nat.eqb_neq. Qed.

Local Arguments listenerEqb : simpl never.

(** A recording row goes back to [Idle], whatever the slot holds. *)
Lemma stop_transition_any (fuel : nat) (st : State) (row : RowId) (action : Channel) :
  rows st !! row = Some (mkRow action true) →
  pendingRenders st = [] →
  let slot := if bool_decide (activeKeybindRecorderStop st = Some row)
              then None else activeKeybindRecorderStop st in
  flushRenders (S fuel) (setIsRecording row false st) =
    mkState (lastSelfMute st) (lastSelfDeaf st) slot (bool_decide (slot ≠ None))
            (hotkeyListenerActive st) (settings st)
            (<[row := mkRow action false]> (rows st)) (nextRowId st) []
            (trace st ++ [CallRemoveEventListener (HandleKeyDown row)]).
Proof.
  intros Hrow Hpend slot. subst slot.
  rewrite (setIsRecording_changed row false st action) by done. rewrite Hpend.
  flush_one. rewrite lookup_insert_eq. cbn.
  unfold keybindRowEffect. cbn.
  destruct (bool_decide (activeKeybindRecorderStop st = Some row)); cbn;
    rewrite flushRenders_nil by done; state_norm.
Qed.

Lemma programInv_stop (fuel : nat) (st : State) (row : RowId) (action : Channel) :
  programInv st →
  rows st !! row = Some (mkRow action true) →
  programInv (flushRenders (S fuel) (setIsRecording row false st)).
Proof.
  intros Hinv Hrow. pose proof Hinv as (Hpend & _ & Hfresh & _).
  rewrite (stop_transition_any fuel st row action) by done. cbn zeta.
  eapply (programInv_intro st); try done; cbn.
  - intros row' Hle. rewrite lookup_insert_ne; [by apply Hfresh|].
    intros <-. by rewrite (Hfresh _ Hle) in Hrow.
  - intros l. rewrite !attachedCount_attachedIn. cbn.
    rewrite attachedIn_insert.
    destruct (listenerEqb (HandleKeyDown row) l) eqn:Hl; cbn; [|done].
    by rewrite (attachedIn_row _ _ _ _ _ Hrow Hl).
Qed.

Lemma programInv_start (fuel : nat) (st : State) (row : RowId) (action : Channel) :
  programInv st →
  rows st !! row = Some (mkRow action false) →
  programInv (flushRenders (S (S fuel)) (setIsRecording row true st)).
Proof.
  intros Hinv Hrow. pose proof Hinv as (Hpend & _ & Hfresh & _).
  assert (∀ (m : gmap RowId Row) row', nextRowId st ≤ row' →
            m !! row' = None → (<[row := mkRow action true]> m) !! row' = None)
    as Hkeep.
  { intros m row' Hle Hnone. rewrite lookup_insert_ne; [done|].
    intros <-. by rewrite (Hfresh _ Hle) in Hrow. }
  destruct (activeKeybindRecorderStop st) as [other|] eqn:Hactive.
  - destruct (decide (other = row)) as [->|Hne].
    + rewrite (start_transition_free _ st row action) by auto.
      eapply (programInv_intro st); try done; cbn; [by auto|].
      intros l. rewrite !attachedCount_attachedIn. cbn.
      rewrite attachedIn_insert.
      destruct (listenerEqb (HandleKeyDown row) l) eqn:Hl; cbn; [|done].
      by rewrite (attachedIn_row _ _ _ _ _ Hrow Hl).
    + destruct (rows st !! other) as [[action' [|]]|] eqn:Hother.
      * rewrite (start_transition_preempt _ st row other action action') by done.
        eapply (programInv_intro st); try done; cbn.
        { intros row' Hle. rewrite lookup_insert_ne; [by auto|].
          intros <-. by rewrite (Hfresh _ Hle) in Hother. }
        intros l. rewrite !attachedCount_attachedIn. cbn.
        rewrite !attachedIn_insert.
        destruct (listenerEqb (HandleKeyDown row) l) eqn:Hl; cbn.
        { rewrite (listenerEqb_distinct row other l) by done.
          by rewrite (attachedIn_row _ _ _ _ _ Hrow Hl). }
        destruct (listenerEqb (HandleKeyDown other) l) eqn:Hl'; cbn; [|done].
        by rewrite (attachedIn_row _ _ _ _ _ Hother Hl').
      * rewrite (start_transition_stale _ st row other action);
          [|done..|by intros r; rewrite Hother; intros [= <-]].
        eapply (programInv_intro st); try done; cbn; [by auto|].
        intros l. rewrite !attachedCount_attachedIn. cbn.
        rewrite attachedIn_insert.
        destruct (listenerEqb (HandleKeyDown row) l) eqn:Hl; cbn; [|done].
        by rewrite (attachedIn_row _ _ _ _ _ Hrow Hl).
      * rewrite (start_transition_stale _ st row other action);
          [|done..|by intros r; rewrite Hother].
        eapply (programInv_intro st); try done; cbn; [by auto|].
        intros l. rewrite !attachedCount_attachedIn. cbn.
        rewrite attachedIn_insert.
        destruct (listenerEqb (HandleKeyDown row) l) eqn:Hl; cbn; [|done].
        by rewrite (attachedIn_row _ _ _ _ _ Hrow Hl).
  - rewrite (start_transition_free _ st row action) by auto.
    eapply (programInv_intro st); try done; cbn; [by auto|].
    intros l. rewrite !attachedCount_attachedIn. cbn.
    rewrite attachedIn_insert.
    destruct (listenerEqb (HandleKeyDown row) l) eqn:Hl; cbn; [|done].
    by rewrite (attachedIn_row _ _ _ _ _ Hrow Hl).
Qed.

Lemma programInv_boot (persisted : Settings) : programInv (bootState persisted).
Proof.
  split; [done|]. split; [done|]. split; [by intros row _; apply lookup_empty|].
  split; [by intros []|]. by intros [].
Qed.

Lemma programInv_recorderStep (ev : RecorderEvent) (st : State) :
  programInv st → programInv (recorderStep ev st).
Proof.
  intros Hinv. pose proof Hinv as (Hpend & Hflag & Hfresh & Hslots & Hlisteners).
  unfold recorderStep, NESTED_UPDATE_LIMIT.
  destruct ev as [action|row|row|row|row event].
  - (* Mount *)
    unfold mountRow, keybindRowEffect. cbn.
    destruct (bool_decide (activeKeybindRecorderStop st = Some (nextRowId st)));
      cbn; (rewrite flushRenders_nil by done);
      (eapply (programInv_intro st _ []); try done; cbn;
       [ intros row' Hle; rewrite lookup_insert_ne by lia; apply Hfresh; lia
       | by rewrite app_nil_r
       | intros l; rewrite !attachedCount_attachedIn; cbn;
         rewrite attachedIn_insert;
         destruct (listenerEqb (HandleKeyDown (nextRowId st)) l) eqn:Hl; cbn;
         [|done];
         by rewrite (attachedIn_fresh _ _ _ _ (Hfresh _ (le_n _)) Hl) ]).
  - (* Unmount *)
    unfold unmountRow.
    destruct (rows st !! row) as [[action [|]]|] eqn:Hrow; cbn;
      [..|by rewrite flushRenders_nil]; rewrite flushRenders_nil by done.
    + eapply (programInv_intro st); try done; cbn.
      { intros row' Hle. apply lookup_delete_None. right. by apply Hfresh. }
      intros l. rewrite !attachedCount_attachedIn. cbn.
      rewrite attachedIn_delete.
      destruct (listenerEqb (HandleKeyDown row) l) eqn:Hl; cbn; [|done].
      by rewrite (attachedIn_row _ _ _ _ _ Hrow Hl).
    + eapply (programInv_intro st _ []); try done; cbn.
      { intros row' Hle. apply lookup_delete_None. right. by apply Hfresh. }
      { by rewrite app_nil_r. }
      intros l. rewrite !attachedCount_attachedIn. cbn.
      rewrite attachedIn_delete.
      destruct (listenerEqb (HandleKeyDown row) l) eqn:Hl; cbn; [|done].
      by rewrite (attachedIn_row _ _ _ _ _ Hrow Hl).
  - (* ClickRecord *)
    unfold clickRecord.
    destruct (rows st !! row) as [[action [|]]|] eqn:Hrow; cbn [isRecording negb].
    + by apply (programInv_stop _ st row action).
    + by apply (programInv_start _ st row action).
    + by rewrite flushRenders_nil.
  - (* ClickClear *)
    assert (benign st (clickClear row st)) as Hbenign.
    { unfold clickClear. destruct (rows st !! row) as [[[] ?]|]; cbn;
        [by apply benign_settings_hotkeys..|apply benign_refl]. }
    pose proof (programInv_benign _ _ Hinv Hbenign) as Hinv'.
    rewrite flushRenders_nil; [done|]. by destruct Hinv'.
  - (* RowKeyDown *)
    unfold rowKeyDown.
    destruct (rows st !! row) as [[action [|]]|] eqn:Hrow; cbn [isRecording rowAction];
      [|by rewrite flushRenders_nil..].
    unfold handleKeyDown.
    set (swallowed := emit CallStopPropagation (emit CallPreventDefault st)).
    assert (benign st swallowed) as Hswallowed.
    { eapply benign_trans; by apply benign_emit. }
    pose proof (programInv_benign _ _ Hinv Hswallowed) as Hinv1.
    destruct (event_repeat event).
    { rewrite flushRenders_nil; [done|]. by destruct Hinv1. }
    destruct (strEq (event_key event) "Escape").
    { by apply (programInv_stop _ swallowed row action). }
    destruct (keybindFromEvent event) as [keybind|].
    + apply (programInv_stop _ _ row action); [|by destruct action].
      apply (programInv_benign swallowed); [done|].
      destruct action; by apply benign_settings_hotkeys.
    + rewrite flushRenders_nil; [done|]. by destruct Hinv1.
Qed.

Lemma programInv_step (onChangeOnWrite : bool) (ev : ProgramEvent) (st : State) :
  programInv st → programInv (programStep onChangeOnWrite ev st).
Proof.
  intros Hinv. pose proof Hinv as (Hpend & Hflag & Hfresh & Hslots & Hlisteners).
  destruct ev as [ev| | |env event|env|env]; cbn [programStep].
  - by apply programInv_recorderStep.
  - unfold startHotkeyListener.
    destruct (hotkeyListenerActive st) eqn:Hactive; [done|].
    eapply (programInv_intro st); try done; cbn.
    intros l. rewrite !attachedCount_attachedIn. cbn. rewrite Hactive.
    by destruct l.
  - unfold stopHotkeyListener.
    destruct (hotkeyListenerActive st) eqn:Hactive; [|done]. cbn [negb].
    eapply (programInv_intro st); try done; cbn.
    intros l. rewrite !attachedCount_attachedIn. cbn. rewrite Hactive.
    by destruct l.
  - destruct (hotkeyListenerActive st); [|done].
    eapply programInv_benign; [done|apply benign_handleHotkeys].
  - eapply programInv_benign; [done|apply (benign_clickFake Mute)].
  - eapply programInv_benign; [done|apply (benign_clickFake Deafen)].
Qed.

Lemma programReachable_inv (onChangeOnWrite : bool) (st : State) :
  programReachable onChangeOnWrite st → programInv st.
Proof.
  induction 1 as [|ev st _ IH]; [apply programInv_boot|by apply programInv_step].
Qed.

(** X22: whatever the plugin has gone through, a channel whose fake
    flag is off has its shadow slot unset: a real flag is remembered
    only between a fake-enable and the fake-disable that follows. *)
Theorem shadow_slot_unset_while_fake_off (onChangeOnWrite : bool) (st : State)
    (channel : Channel) :
  programReachable onChangeOnWrite st →
  fakeFlag channel st = false →
  shadowSlot channel st = None.
Proof.
  intros Hreach. apply programReachable_inv in Hreach as (_ & _ & _ & Hslots & _).
  apply Hslots.
Qed.

Lemma shadow_slot_unset_while_fake_off_witness :
  shadowSlot Deafen sampleRun = None.
Proof.
  apply (shadow_slot_unset_while_fake_off false sampleRun Deafen).
  - repeat constructor.
  - by vm_compute.
Defined.

(** X23: every listener the plugin has registered and not removed is
    one its state accounts for, and the other way round: the number of
    registrations of the hotkey listener exceeds the number of its
    removals by one while [hotkeyListenerActive] is set and equals it
    otherwise, and the same holds for the key listener of each row and
    the row being in the [Recording] state.  So no listener is
    registered twice or left behind, also across stop and start. *)
Theorem listeners_accounted_for (onChangeOnWrite : bool) (st : State) (l : Listener) :
  programReachable onChangeOnWrite st →
  registrations l (trace st) =
    removals l (trace st) + (if attached l st then 1 else 0).
Proof.
  intros Hreach. apply programReachable_inv in Hreach as (_ & _ & _ & _ & Hlisteners).
  apply Hlisteners.
Qed.

Lemma listeners_accounted_for_witness :
  registrations (HandleKeyDown 0) (trace sampleRun) = 1
  ∧ removals (HandleKeyDown 0) (trace sampleRun) = 0
  ∧ attached (HandleKeyDown 0) sampleRun = true.
Proof.
  assert (programReachable false sampleRun) as Hreach by repeat constructor.
  pose proof (listeners_accounted_for false sampleRun (HandleKeyDown 0) Hreach) as Hcount.
  assert (removals (HandleKeyDown 0) (trace sampleRun) = 0) as Hremovals by by vm_compute.
  assert (attached (HandleKeyDown 0) sampleRun = true) as Hattached by by vm_compute.
  rewrite Hremovals, Hattached in Hcount. by rewrite Hcount.
Defined.

(** X24: whatever the plugin has gone through, stop and start
    included, the flag that suppresses the hotkeys is set exactly when
    the recorder slot is set. *)
Theorem recording_flag_follows_slot (onChangeOnWrite : bool) (st : State) :
  programReachable onChangeOnWrite st →
  isRecordingKeybind st = true ↔ activeKeybindRecorderStop st ≠ None.
Proof.
  intros Hreach. apply programReachable_inv in Hreach as (_ & Hflag & _).
  rewrite Hflag. apply bool_decide_eq_true.
Qed.

Lemma recording_flag_follows_slot_witness :
  isRecordingKeybind sampleRun = true.
Proof.
  apply (proj2 (recording_flag_follows_slot false sampleRun
                  ltac:(repeat constructor))).
  by vm_compute.
Defined.

(** ** Separation of the recorder and the synchronizers *)

Lemma quiet_same (st st' : State) :
  lastSelfMute st' = lastSelfMute st →
  lastSelfDeaf st' = lastSelfDeaf st →
  fakeMute (settings st') = fakeMute (settings st) →
  fakeDeafen (settings st') = fakeDeafen (settings st) →
  hotkeyListenerActive st' = hotkeyListenerActive st →
  trace st' = trace st →
  quiet st st'.
Proof.
  intros. repeat (split; [done|]). exists []. by rewrite app_nil_r.
Qed.

Lemma quiet_refl (st : State) : quiet st st.
Proof. by apply quiet_same. Qed.

Lemma quiet_trans (a b c : State) : quiet a b → quiet b c → quiet a c.
Proof.
  intros (H1 & H2 & H3 & H4 & H5 & l1 & Ht1 & Hl1)
         (H1' & H2' & H3' & H4' & H5' & l2 & Ht2 & Hl2).
  repeat (split; [congruence|]).
  exists (l1 ++ l2). split; [by rewrite Ht2, Ht1, <- app_assoc|].
  by apply Forall_app.
Qed.

Lemma quiet_emit (c : Call) (st : State) :
  isSetterCall c = false → isSyncCall c = false → quiet st (emit c st).
Proof.
  intros Hsetter Hsync. repeat (split; [done|]).
  exists [c]. split; [done|]. by apply Forall_singleton.
Qed.

Lemma quiet_setIsRecording (row : RowId) (value : bool) (st : State) :
  quiet st (setIsRecording row value st).
Proof.
  unfold setIsRecording. destruct (rows st !! row) as [r|]; [|apply quiet_refl].
  destruct (boolEq _ _); [apply quiet_refl|]. by apply quiet_same.
Qed.

Lemma quiet_onHotkeyChange (action : Channel) (value : KeybindValue) (st : State) :
  quiet st (onHotkeyChange action value st).
Proof. destruct action; by apply quiet_same. Qed.

Lemma quiet_keybindRowEffect (row : RowId) (recording : bool) (st : State) :
  quiet st (keybindRowEffect row recording st).
Proof.
  unfold keybindRowEffect. destruct recording; cbn [negb].
  - apply (quiet_trans _ (preemptActiveRecorder row st)).
    + unfold preemptActiveRecorder.
      destruct (activeKeybindRecorderStop st) as [other|]; [|apply quiet_refl].
      destruct (bool_decide (other ≠ row)); [|apply quiet_refl].
      unfold callStopRecording.
      apply (quiet_trans _ (emit (CallStopRecording other) st));
        [by apply quiet_emit|apply quiet_setIsRecording].
    + unfold activateRecorder.
      apply (quiet_trans _ (set_isRecordingKeybind true
               (set_activeKeybindRecorderStop (Some row)
                  (preemptActiveRecorder row st))));
        [by apply quiet_same|by apply quiet_emit].
  - destruct (bool_decide (activeKeybindRecorderStop st = Some row));
      by apply quiet_same.
Qed.

Lemma quiet_commitRow (row : RowId) (st : State) : quiet st (commitRow row st).
Proof.
  unfold commitRow. destruct (rows st !! row) as [[action recording]|];
    [|apply quiet_refl].
  cbn [isRecording].
  destruct recording; [apply quiet_keybindRowEffect|].
  apply (quiet_trans _ (keybindRowCleanup row st));
    [by apply quiet_emit|apply quiet_keybindRowEffect].
Qed.

Lemma quiet_flushRenders (fuel : nat) (st : State) : quiet st (flushRenders fuel st).
Proof.
  revert st. induction fuel as [|fuel IH]; intros st; [apply quiet_refl|].
  destruct (pendingRenders st) as [|row rest] eqn:Hpending.
  - rewrite flushRenders_nil by done. apply quiet_refl.
  - rewrite (flushRenders_cons _ _ _ _ Hpending).
    apply (quiet_trans _ (commitRow row (set_pendingRenders rest st))); [|apply IH].
    apply (quiet_trans _ (set_pendingRenders rest st));
      [by apply quiet_same|apply quiet_commitRow].
Qed.

Lemma quiet_recorderStep (ev : RecorderEvent) (st : State) :
  quiet st (recorderStep ev st).
Proof.
  unfold recorderStep.
  match goal with
  | |- quiet st (flushRenders _ ?s) =>
      apply (quiet_trans _ s); [|apply quiet_flushRenders]
  end.
  destruct ev as [action|row|row|row|row event].
  - unfold mountRow.
    match goal with
    | |- quiet st (keybindRowEffect _ _ ?s) =>
        apply (quiet_trans _ s); [by apply quiet_same|apply quiet_keybindRowEffect]
    end.
  - unfold unmountRow. destruct (rows st !! row) as [[action recording]|];
      [|apply quiet_refl].
    cbn [isRecording].
    destruct recording; [|by apply quiet_same].
    apply (quiet_trans _ (keybindRowCleanup row st));
      [by apply quiet_emit|by apply quiet_same].
  - unfold clickRecord. destruct (rows st !! row); [|apply quiet_refl].
    apply quiet_setIsRecording.
  - unfold clickClear. destruct (rows st !! row); [|apply quiet_refl].
    apply quiet_onHotkeyChange.
  - unfold rowKeyDown. destruct (rows st !! row) as [[action recording]|];
      [|apply quiet_refl].
    cbn [isRecording rowAction]. destruct recording; [|apply quiet_refl].
    unfold handleKeyDown.
    set (swallowed := emit CallStopPropagation (emit CallPreventDefault st)).
    assert (quiet st swallowed) as Hswallowed.
    { apply (quiet_trans _ (emit CallPreventDefault st)); by apply quiet_emit. }
    destruct (event_repeat event); [done|].
    destruct (strEq _ _);
      [by apply (quiet_trans _ swallowed); [|apply quiet_setIsRecording]|].
    destruct (keybindFromEvent event) as [keybind|]; [|done].
    apply (quiet_trans _ swallowed); [done|].
    apply (quiet_trans _ (onHotkeyChange action (Some keybind) swallowed));
      [apply quiet_onHotkeyChange|apply quiet_setIsRecording].
Qed.

(** X25: nothing that happens in the settings panel reaches the fake
    state or the engine: any transition of the recorder, from any
    state, leaves both shadow slots, both fake flags and the listener
    flag as they are and enters no synchronizer and calls no engine
    setter. *)
Theorem recorder_leaves_fake_state_alone (ev : RecorderEvent) (st : State) :
  lastSelfMute (recorderStep ev st) = lastSelfMute st
  ∧ lastSelfDeaf (recorderStep ev st) = lastSelfDeaf st
  ∧ fakeMute (settings (recorderStep ev st)) = fakeMute (settings st)
  ∧ fakeDeafen (settings (recorderStep ev st)) = fakeDeafen (settings st)
  ∧ hotkeyListenerActive (recorderStep ev st) = hotkeyListenerActive st
  ∧ Forall (λ c, isSetterCall c = false ∧ isSyncCall c = false)
           (callsDuring st (recorderStep ev st)).
Proof.
  destruct (quiet_recorderStep ev st) as (H1 & H2 & H3 & H4 & H5 & calls & Ht & Hcalls).
  repeat (split; [done|]). by rewrite (callsDuring_app _ _ _ Ht).
Qed.

Lemma clickFake_hotkeys (channel : Channel) (onChangeOnWrite : bool) (env : Env)
    (st : State) :
  fakeMuteHotkey (settings (clickFake channel onChangeOnWrite env st))
    = fakeMuteHotkey (settings st)
  ∧ fakeDeafenHotkey (settings (clickFake channel onChangeOnWrite env st))
    = fakeDeafenHotkey (settings st).
Proof.
  pose proof (clickFake_spec channel onChangeOnWrite env st) as (Hs & _).
  cbn zeta in Hs. rewrite Hs. by destruct channel.
Qed.

(** X26: the dispatcher and the panel buttons never change a
    configured shortcut, the recorder slot and flag, the rows of the
    settings panel or the listener flag, and never register or remove a
    listener. *)
Theorem dispatcher_leaves_recorder_alone (onChangeOnWrite : bool) (env : Env)
    (event : KeyboardEvent) (st : State) :
  let handled := handleHotkeys onChangeOnWrite env event st in
  fakeMuteHotkey (settings handled) = fakeMuteHotkey (settings st)
  ∧ fakeDeafenHotkey (settings handled) = fakeDeafenHotkey (settings st)
  ∧ activeKeybindRecorderStop handled = activeKeybindRecorderStop st
  ∧ isRecordingKeybind handled = isRecordingKeybind st
  ∧ rows handled = rows st
  ∧ hotkeyListenerActive handled = hotkeyListenerActive st
  ∧ Forall (λ c, isListenerCall c = false) (callsDuring st handled).
Proof.
  intros handled.
  destruct (benign_handleHotkeys onChangeOnWrite env event st)
    as (_ & Ha & Hf & Hl & Hr & _ & (calls & Ht & Hcalls) & _).
  fold handled in Ha, Hf, Hl, Hr, Ht.
  assert (fakeMuteHotkey (settings handled) = fakeMuteHotkey (settings st)
          ∧ fakeDeafenHotkey (settings handled) = fakeDeafenHotkey (settings st))
    as [HhM HhD].
  { subst handled.
    destruct (event_defaultPrevented event || event_repeat event
              || isRecordingKeybind st) eqn:Hguard.
    { unfold handleHotkeys. by rewrite Hguard. }
    destruct (shouldIgnoreKeybindTarget (event_target event)) eqn:Htarget.
    { unfold handleHotkeys. by rewrite Hguard, Htarget. }
    apply orb_false_iff in Hguard as [Hguard Hrecording].
    apply orb_false_iff in Hguard as [Hprevented Hrepeat].
    rewrite handleHotkeys_live by done. cbn zeta.
    pose proof (clickFake_hotkeys Mute onChangeOnWrite env st) as [HM1 HM2].
    pose proof (clickFake_hotkeys Deafen onChangeOnWrite env st) as [HD1 HD2].
    pose proof (clickFake_hotkeys Deafen onChangeOnWrite env
                  (clickFakeMute onChangeOnWrite env st)) as [HB1 HB2].
    cbn [clickFake] in *.
    destruct (matchesKeybind event (fakeMuteHotkey (settings st))),
             (matchesKeybind event (fakeDeafenHotkey (settings st)));
      cbn [orb settings emit]; split; congruence. }
  repeat (split; [done|]). by rewrite (callsDuring_app _ _ _ Ht).
Qed.

(** ** Recorder arbiter across the plugin's runs *)

Lemma arbiterInv_benign (st st' : State) :
  arbiterInv st → benign st st' → arbiterInv st'.
Proof.
  intros Hinv (Hp & Ha & Hf & _ & Hr & _). by apply (arbiterInv_frame st).
Qed.

Lemma arbiterInv_boot (persisted : Settings) : arbiterInv (bootState persisted).
Proof.
  split; [done|]. split; [done|].
  intros row r Hrow. cbn in Hrow. by rewrite lookup_empty in Hrow.
Qed.

(** As long as [stop()] does not arrive during a recording, a row in
    the [Recording] state is the one the slot names. *)
Lemma orderlyReachable_arbiterInv (onChangeOnWrite : bool) (st : State) :
  orderlyReachable onChangeOnWrite st → arbiterInv st.
Proof.
  induction 1 as [persisted|ev st _ IH Hstop]; [apply arbiterInv_boot|].
  destruct ev as [ev| | |env event|env|env]; cbn [programStep].
  - by apply arbiterInv_step.
  - unfold startHotkeyListener. destruct (hotkeyListenerActive st); [done|].
    by apply (arbiterInv_frame st).
  - unfold stopHotkeyListener. destruct (hotkeyListenerActive st); [|done].
    cbn [negb]. destruct IH as (Hpend & _ & _).
    split; [done|]. split; [done|].
    intros row r Hrow Hrec. destruct (Hstop eq_refl row). by exists r.
  - destruct (hotkeyListenerActive st); [|done].
    eapply arbiterInv_benign; [done|apply benign_handleHotkeys].
  - eapply arbiterInv_benign; [done|apply (benign_clickFake Mute)].
  - eapply arbiterInv_benign; [done|apply (benign_clickFake Deafen)].
Qed.

Lemma orderlyReachable_programReachable (onChangeOnWrite : bool) (st : State) :
  orderlyReachable onChangeOnWrite st → programReachable onChangeOnWrite st.
Proof. induction 1; by constructor. Qed.

Lemma sampleSession_orderly : orderlyReachable false sampleSession.
Proof.
  unfold sampleSession.
  repeat (apply orderlyReachable_step; [|done]). apply orderlyReachable_boot.
Qed.

Lemma twoRecorders_reachable : programReachable false twoRecorders.
Proof. repeat constructor. Qed.

(** C4: the code does not keep the recorder to one session.  [stop()]
    arriving while the mute row records empties the slot without
    invoking the stop capability it held, so the row stays in the
    [Recording] state with its key listener attached; the deafen row,
    asked to record next, finds no recorder to pre-empt, and the two
    rows record at once.  No stop capability is invoked anywhere in the
    run, and the next key pressed is stored as both shortcuts. *)
Theorem two_rows_record_after_stop :
  programReachable false twoRecorders
  ∧ rowRecording stoppedWhileRecording 0
  ∧ activeKeybindRecorderStop stoppedWhileRecording = None
  ∧ callsDuring sampleSession stoppedWhileRecording =
      [CallRemoveEventListener HandleHotkeys]
  ∧ callsDuring stoppedWhileRecording twoRecorders =
      [CallAddEventListener (HandleKeyDown 1)]
  ∧ trace twoRecorders =
      [ CallAddEventListener HandleHotkeys;
        CallAddEventListener (HandleKeyDown 0);
        CallRemoveEventListener HandleHotkeys;
        CallAddEventListener (HandleKeyDown 1) ]
  ∧ rowRecording twoRecorders 0
  ∧ rowRecording twoRecorders 1
  ∧ attached (HandleKeyDown 0) twoRecorders = true
  ∧ attached (HandleKeyDown 1) twoRecorders = true
  ∧ ¬ singleSession twoRecorders
  ∧ (let bound := recorderStep (RowKeyDown 1 ctrlK)
                    (recorderStep (RowKeyDown 0 ctrlK) twoRecorders) in
     hotkeyOf Mute bound = Some (mkKeybind "k" "KeyK" true false false false)
     ∧ hotkeyOf Deafen bound = Some (mkKeybind "k" "KeyK" true false false false)).
Proof.
  assert (rowRecording twoRecorders 0) as Hmute
    by (exists (mkRow Mute true); by vm_compute).
  assert (rowRecording twoRecorders 1) as Hdeafen
    by (exists (mkRow Deafen true); by vm_compute).
  split; [apply twoRecorders_reachable|].
  split; [exists (mkRow Mute true); by vm_compute|].
  split; [by vm_compute|]. split; [by vm_compute|]. split; [by vm_compute|].
  split; [by vm_compute|]. split; [done|]. split; [done|].
  split; [by vm_compute|]. split; [by vm_compute|].
  split; [|by vm_compute].
  intros Hsingle. by pose proof (Hsingle 0 1 Hmute Hdeafen).
Qed.

(** C7: [stop()] on a running listener does not end a recording in
    progress.  With the mute row recording, [stop()] and the [start()]
    that follows leave the slot empty and the flag reset, but the row
    is still in the [Recording] state with its key listener attached,
    and the next key pressed is stored as the mute shortcut. *)
Theorem recording_survives_stop_and_start :
  programReachable false restartedWhileRecording
  ∧ hotkeyListenerActive sampleSession = true
  ∧ rowRecording sampleSession 0
  ∧ activeKeybindRecorderStop sampleSession = Some 0
  ∧ callsDuring sampleSession restartedWhileRecording =
      [ CallRemoveEventListener HandleHotkeys; CallAddEventListener HandleHotkeys ]
  ∧ activeKeybindRecorderStop restartedWhileRecording = None
  ∧ isRecordingKeybind restartedWhileRecording = false
  ∧ rowRecording stoppedWhileRecording 0
  ∧ attached (HandleKeyDown 0) stoppedWhileRecording = true
  ∧ rowRecording restartedWhileRecording 0
  ∧ attached (HandleKeyDown 0) restartedWhileRecording = true
  ∧ (let bound := recorderStep (RowKeyDown 0 ctrlK) restartedWhileRecording in
     hotkeyOf Mute restartedWhileRecording = Some altM
     ∧ hotkeyOf Mute bound = Some (mkKeybind "k" "KeyK" true false false false)
     ∧ callsDuring restartedWhileRecording bound =
         [ CallPreventDefault; CallStopPropagation;
           CallRemoveEventListener (HandleKeyDown 0) ]).
Proof.
  split; [repeat constructor|].
  split; [by vm_compute|]. split; [exists (mkRow Mute true); by vm_compute|].
  split; [by vm_compute|]. split; [by vm_compute|]. split; [by vm_compute|].
  split; [by vm_compute|]. split; [exists (mkRow Mute true); by vm_compute|].
  split; [by vm_compute|]. split; [exists (mkRow Mute true); by vm_compute|].
  split; by vm_compute.
Qed.



(** ** The dispatcher while a shortcut is being recorded *)

(** X11: the dispatcher changes nothing for an event that was already
    handled, for an auto-repeat, and while the recording flag is set.
    In every state the plugin reaches it changes nothing while the
    recorder slot is set; and on the runs in which [stop()] never
    arrives while a row records it changes nothing, whatever the key,
    while a row of the settings panel records. *)
Theorem handleHotkeys_guarded (onChangeOnWrite : bool) (env : Env)
    (event : KeyboardEvent) (st : State) :
  (event_defaultPrevented event = true ∨ event_repeat event = true
   ∨ isRecordingKeybind st = true →
   handleHotkeys onChangeOnWrite env event st = st)
  ∧ (programReachable onChangeOnWrite st →
     activeKeybindRecorderStop st ≠ None →
     handleHotkeys onChangeOnWrite env event st = st)
  ∧ (orderlyReachable onChangeOnWrite st → ∀ row, rowRecording st row →
     handleHotkeys onChangeOnWrite env event st = st).
Proof.
  assert (event_defaultPrevented event = true ∨ event_repeat event = true
          ∨ isRecordingKeybind st = true →
          handleHotkeys onChangeOnWrite env event st = st) as Hguard.
  { intros Hguard. unfold handleHotkeys.
    destruct (event_defaultPrevented event), (event_repeat event),
             (isRecordingKeybind st); cbn; try done.
    by destruct Hguard as [|[|]]. }
  split; [done|]. split.
  - intros Hreach Hslot. apply programReachable_inv in Hreach as (_ & Hflag & _).
    apply Hguard. right. right. rewrite Hflag. by apply bool_decide_eq_true_2.
  - intros Hreach row (r & Hrow & Hrec).
    apply orderlyReachable_arbiterInv in Hreach as (_ & Hflag & Hrows).
    apply Hguard. right. right.
    rewrite Hflag, (Hrows _ _ Hrow Hrec). by apply bool_decide_eq_true_2.
Qed.

Lemma handleHotkeys_guarded_witness :
  hotkeyListenerActive sampleSession = true
  ∧ matchesKeybind altMOnBody (hotkeyOf Mute sampleSession) = true
  ∧ handleHotkeys false sampleEnv altMOnBody sampleSession = sampleSession.
Proof.
  destruct (handleHotkeys_guarded false sampleEnv altMOnBody sampleSession)
    as (Hflag & Hslot & Hrow).
  pose proof (Hflag (or_intror (or_intror eq_refl))) as Hsame1.
  assert (activeKeybindRecorderStop sampleSession ≠ None) as Hset
    by (vm_compute; discriminate).
  pose proof (Hslot (orderlyReachable_programReachable _ _ sampleSession_orderly) Hset)
    as Hsame2.
  assert (rowRecording sampleSession 0) as Hrecording.
  { exists (mkRow Mute true). split; vm_compute; reflexivity. }
  split; [vm_compute; reflexivity|]. split; [vm_compute; reflexivity|].
  exact (Hrow sampleSession_orderly 0 Hrecording).
Defined.

(** ** Recorder arbiter: leaving the [Recording] state *)

(** The state after a recording row went back to [Idle], read off field
    by field. *)
Lemma stop_transition_fields (fuel : nat) (st : State) (row : RowId)
    (action : Channel) :
  rows st !! row = Some (mkRow action true) →
  pendingRenders st = [] →
  let slot := if bool_decide (activeKeybindRecorderStop st = Some row)
              then None else activeKeybindRecorderStop st in
  let st' := flushRenders (S fuel) (setIsRecording row false st) in
  lastSelfMute st' = lastSelfMute st
  ∧ lastSelfDeaf st' = lastSelfDeaf st
  ∧ hotkeyListenerActive st' = hotkeyListenerActive st
  ∧ settings st' = settings st
  ∧ rows st' = <[row := mkRow action false]> (rows st)
  ∧ activeKeybindRecorderStop st' = slot
  ∧ isRecordingKeybind st' = bool_decide (slot ≠ None)
  ∧ trace st' = trace st ++ [CallRemoveEventListener (HandleKeyDown row)].
Proof.
  intros Hrow Hpend slot st'. subst st'.
  by rewrite (stop_transition_any fuel st row action).
Qed.

Lemma not_recording_after_insert (st' : State) (m : gmap RowId Row) (row : RowId)
    (action : Channel) :
  rows st' = <[row := mkRow action false]> m → ¬ rowRecording st' row.
Proof.
  intros Hrows (r & Hlookup & Hrec). rewrite Hrows, lookup_insert_eq in Hlookup.
  by simplify_eq.
Qed.

(** A recording row receives a key that it stores. *)
Lemma commit_transition_fields (st : State) (row : RowId) (action : Channel)
    (event : KeyboardEvent) :
  rows st !! row = Some (mkRow action true) →
  pendingRenders st = [] →
  event_repeat event = false →
  event_key event ≠ "Escape" →
  event_key event ∉ MODIFIER_KEYS →
  let slot := if bool_decide (activeKeybindRecorderStop st = Some row)
              then None else activeKeybindRecorderStop st in
  let st' := recorderStep (RowKeyDown row event) st in
  hotkeyOf action st' =
    Some (mkKeybind (event_key event) (event_code event) (event_ctrlKey event)
                    (event_shiftKey event) (event_altKey event) (event_metaKey event))
  ∧ hotkeyOf (otherChannel action) st' = hotkeyOf (otherChannel action) st
  ∧ fakeMute (settings st') = fakeMute (settings st)
  ∧ fakeDeafen (settings st') = fakeDeafen (settings st)
  ∧ lastSelfMute st' = lastSelfMute st
  ∧ lastSelfDeaf st' = lastSelfDeaf st
  ∧ rows st' = <[row := mkRow action false]> (rows st)
  ∧ activeKeybindRecorderStop st' = slot
  ∧ isRecordingKeybind st' = bool_decide (slot ≠ None)
  ∧ trace st' = trace st ++ [ CallPreventDefault; CallStopPropagation;
                              CallRemoveEventListener (HandleKeyDown row) ].
Proof.
  intros Hrow Hpend Hrepeat Hescape Hmodifier slot st'. subst st' slot.
  unfold recorderStep, NESTED_UPDATE_LIMIT, rowKeyDown. rewrite Hrow.
  cbn [isRecording rowAction]. unfold handleKeyDown.
  rewrite Hrepeat. apply strEq_false in Hescape. rewrite Hescape.
  rewrite (keybindFromEvent_other _ Hmodifier).
  set (kb := mkKeybind _ _ _ _ _ _).
  edestruct (stop_transition_fields 49
               (onHotkeyChange action (Some kb)
                  (emit CallStopPropagation (emit CallPreventDefault st))) row action)
    as (HsM & HsD & _ & Hs & Hr & Ha & Hf & Ht); [by destruct action..|].
  unfold hotkeyOf. rewrite Hs, HsM, HsD, Hr, Ha, Hf, Ht.
  destruct action; cbn; by rewrite <- !app_assoc.
Qed.

(** X17: in every state the plugin reaches, a recording row leaves
    [Recording] without any change to the settings when Escape is
    pressed and when its record button is clicked again, and the row's
    key listener is removed.  The slot is emptied if it names the row
    and is left as it is otherwise, and the flag is set to whether the
    slot still holds a recorder. *)
Theorem recording_cancelled_without_commit (onChangeOnWrite : bool) (st : State)
    (row : RowId) :
  programReachable onChangeOnWrite st → rowRecording st row →
  let slot := if bool_decide (activeKeybindRecorderStop st = Some row)
              then None else activeKeybindRecorderStop st in
  (∀ event, event_repeat event = false → event_key event = "Escape" →
     let st' := recorderStep (RowKeyDown row event) st in
     settings st' = settings st
     ∧ ¬ rowRecording st' row
     ∧ activeKeybindRecorderStop st' = slot
     ∧ isRecordingKeybind st' = bool_decide (slot ≠ None)
     ∧ callsDuring st st' =
         [ CallPreventDefault; CallStopPropagation;
           CallRemoveEventListener (HandleKeyDown row) ])
  ∧ (let st' := recorderStep (ClickRecord row) st in
     settings st' = settings st
     ∧ ¬ rowRecording st' row
     ∧ activeKeybindRecorderStop st' = slot
     ∧ isRecordingKeybind st' = bool_decide (slot ≠ None)
     ∧ callsDuring st st' = [CallRemoveEventListener (HandleKeyDown row)]).
Proof.
  intros Hreach ([action recording] & Hrow & Hrec) slot. cbn in Hrec. subst recording.
  apply programReachable_inv in Hreach as (Hpend & _).
  split.
  - intros event Hrepeat Hkey st'. subst st'.
    unfold recorderStep, NESTED_UPDATE_LIMIT, rowKeyDown. rewrite Hrow.
    cbn [isRecording rowAction]. unfold handleKeyDown.
    rewrite Hrepeat, Hkey. cbn [strEq String.eqb Ascii.eqb Bool.eqb].
    edestruct (stop_transition_fields 49
                 (emit CallStopPropagation (emit CallPreventDefault st)) row action)
      as (_ & _ & _ & Hs & Hr & Ha & Hf & Ht); [done..|].
    split; [done|]. split; [by eapply not_recording_after_insert|].
    split; [done|]. split; [done|].
    apply callsDuring_app. rewrite Ht. cbn. by rewrite <- !app_assoc.
  - intros st'. subst st'.
    unfold recorderStep, NESTED_UPDATE_LIMIT, clickRecord. rewrite Hrow.
    cbn [isRecording negb].
    edestruct (stop_transition_fields 49 st row action)
      as (_ & _ & _ & Hs & Hr & Ha & Hf & Ht); [done..|].
    split; [done|]. split; [by eapply not_recording_after_insert|].
    split; [done|]. split; [done|]. by apply callsDuring_app.
Qed.

Lemma recording_cancelled_without_commit_witness :
  (activeKeybindRecorderStop (recorderStep (RowKeyDown 0 escapeKey) sampleSession) = None
   ∧ isRecordingKeybind (recorderStep (RowKeyDown 0 escapeKey) sampleSession) = false
   ∧ callsDuring sampleSession (recorderStep (ClickRecord 0) sampleSession)
     = [CallRemoveEventListener (HandleKeyDown 0)])
  ∧ (activeKeybindRecorderStop (recorderStep (RowKeyDown 0 escapeKey) twoRecorders)
     = Some 1
     ∧ isRecordingKeybind (recorderStep (RowKeyDown 0 escapeKey) twoRecorders) = true).
Proof.
  split.
  - destruct (recording_cancelled_without_commit false sampleSession 0)
      as (Hescape & Hclick).
    { apply orderlyReachable_programReachable, sampleSession_orderly. }
    { exists (mkRow Mute true). split; vm_compute; reflexivity. }
    destruct (Hescape escapeKey) as (_ & _ & Hslot & Hflag & _);
      [vm_compute; reflexivity..|].
    destruct Hclick as (_ & _ & _ & _ & Hcalls).
    split; [exact Hslot|]. split; [exact Hflag|exact Hcalls].
  - destruct (recording_cancelled_without_commit false twoRecorders 0)
      as (Hescape & _).
    { apply twoRecorders_reachable. }
    { exists (mkRow Mute true). split; vm_compute; reflexivity. }
    destruct (Hescape escapeKey) as (_ & _ & Hslot & Hflag & _);
      [vm_compute; reflexivity..|].
    split; [exact Hslot|exact Hflag].
Defined.

(** X18: in every state the plugin reaches, a key-down that is no
    auto-repeat, not Escape and not a modifier key, received by a
    recording row, stores the descriptor of the event in the setting of
    that row, leaves the other shortcut and both fake flags alone, and
    ends the recording of that row: its key listener is removed, the
    slot is emptied if it names the row and left as it is otherwise,
    and the flag is set to whether the slot still holds a recorder. *)
Theorem recording_commits_descriptor (onChangeOnWrite : bool) (st : State)
    (row : RowId) (r : Row) (event : KeyboardEvent) :
  programReachable onChangeOnWrite st →
  rows st !! row = Some r → isRecording r = true →
  event_repeat event = false →
  event_key event ≠ "Escape" →
  event_key event ∉ MODIFIER_KEYS →
  let slot := if bool_decide (activeKeybindRecorderStop st = Some row)
              then None else activeKeybindRecorderStop st in
  let st' := recorderStep (RowKeyDown row event) st in
  hotkeyOf (rowAction r) st' =
    Some (mkKeybind (event_key event) (event_code event) (event_ctrlKey event)
                    (event_shiftKey event) (event_altKey event) (event_metaKey event))
  ∧ hotkeyOf (otherChannel (rowAction r)) st' = hotkeyOf (otherChannel (rowAction r)) st
  ∧ fakeMute (settings st') = fakeMute (settings st)
  ∧ fakeDeafen (settings st') = fakeDeafen (settings st)
  ∧ ¬ rowRecording st' row
  ∧ activeKeybindRecorderStop st' = slot
  ∧ isRecordingKeybind st' = bool_decide (slot ≠ None)
  ∧ callsDuring st st' =
      [ CallPreventDefault; CallStopPropagation;
        CallRemoveEventListener (HandleKeyDown row) ].
Proof.
  intros Hreach Hrow Hrec Hrepeat Hescape Hmodifier slot st'.
  destruct r as [action recording]. cbn in Hrec. subst recording.
  apply programReachable_inv in Hreach as (Hpend & _).
  destruct (commit_transition_fields st row action event Hrow Hpend Hrepeat
              Hescape Hmodifier)
    as (Hown & Hother & HfM & HfD & _ & _ & Hr & Ha & Hf & Ht).
  cbn [rowAction].
  split; [done|]. split; [done|]. split; [done|]. split; [done|].
  split; [eapply not_recording_after_insert; exact Hr|].
  split; [done|]. split; [done|]. by apply callsDuring_app.
Qed.

Lemma recording_commits_descriptor_witness :
  (hotkeyOf Mute (recorderStep (RowKeyDown 0 ctrlK) sampleSession)
     = Some (mkKeybind "k" "KeyK" true false false false)
   ∧ hotkeyOf Deafen (recorderStep (RowKeyDown 0 ctrlK) sampleSession) = None
   ∧ activeKeybindRecorderStop (recorderStep (RowKeyDown 0 ctrlK) sampleSession) = None)
  ∧ (hotkeyOf Mute (recorderStep (RowKeyDown 0 ctrlK) twoRecorders)
       = Some (mkKeybind "k" "KeyK" true false false false)
     ∧ activeKeybindRecorderStop (recorderStep (RowKeyDown 0 ctrlK) twoRecorders)
       = Some 1
     ∧ isRecordingKeybind (recorderStep (RowKeyDown 0 ctrlK) twoRecorders) = true).
Proof.
  assert (event_key ctrlK ≠ "Escape") as Hescape by (vm_compute; discriminate).
  assert (event_key ctrlK ∉ MODIFIER_KEYS) as Hmodifier.
  { rewrite elem_of_MODIFIER_KEYS. vm_compute. intuition discriminate. }
  split.
  - destruct (recording_commits_descriptor false sampleSession 0 (mkRow Mute true) ctrlK
                (orderlyReachable_programReachable _ _ sampleSession_orderly)
                eq_refl eq_refl eq_refl Hescape Hmodifier)
      as (Hown & Hother & _ & _ & _ & Hslot & _).
    split; [exact Hown|]. split; [exact Hother|exact Hslot].
  - destruct (recording_commits_descriptor false twoRecorders 0 (mkRow Mute true) ctrlK
                twoRecorders_reachable eq_refl eq_refl eq_refl Hescape Hmodifier)
      as (Hown & _ & _ & _ & _ & Hslot & Hflag & _).
    split; [exact Hown|]. split; [exact Hslot|exact Hflag].
Defined.

(** X19: in every state the plugin reaches, an auto-repeat or a
    modifier key received by a recording row is swallowed and nothing
    else happens: the rows, the settings, the slot and the flag stay as
    they are, so the row keeps recording. *)
Theorem recording_ignores_repeat_and_modifiers (onChangeOnWrite : bool)
    (st : State) (row : RowId) (event : KeyboardEvent) :
  programReachable onChangeOnWrite st → rowRecording st row →
  event_repeat event = true ∨ event_key event ∈ MODIFIER_KEYS →
  let st' := recorderStep (RowKeyDown row event) st in
  callsDuring st st' = [CallPreventDefault; CallStopPropagation]
  ∧ settings st' = settings st
  ∧ rows st' = rows st
  ∧ rowRecording st' row
  ∧ activeKeybindRecorderStop st' = activeKeybindRecorderStop st
  ∧ isRecordingKeybind st' = isRecordingKeybind st.
Proof.
  intros Hreach Hrecording Hignored st'. subst st'.
  pose proof Hrecording as ([action recording] & Hrow & Hrec).
  cbn in Hrec. subst recording.
  apply programReachable_inv in Hreach as (Hpend & _).
  assert (rowKeyDown row event st
          = emit CallStopPropagation (emit CallPreventDefault st)) as Hkey.
  { unfold rowKeyDown. rewrite Hrow. cbn [isRecording rowAction].
    unfold handleKeyDown. destruct (event_repeat event) eqn:Hrepeat; [done|].
    destruct Hignored as [?|Hmodifier]; [done|].
    assert (strEq (event_key event) "Escape" = false) as ->.
    { apply strEq_false. intros Hescape. rewrite Hescape in Hmodifier.
      apply elem_of_MODIFIER_KEYS in Hmodifier. by destruct Hmodifier as [H|[H|[H|H]]]. }
    by rewrite (keybindFromEvent_modifier _ Hmodifier). }
  unfold recorderStep. rewrite Hkey, flushRenders_nil by done.
  split; [|done]. apply callsDuring_app. cbn. by rewrite <- app_assoc.
Qed.

Lemma recording_ignores_repeat_and_modifiers_witness :
  callsDuring twoRecorders (recorderStep (RowKeyDown 0 shiftKey) twoRecorders)
    = [CallPreventDefault; CallStopPropagation]
  ∧ activeKeybindRecorderStop (recorderStep (RowKeyDown 0 shiftKey) twoRecorders)
    = activeKeybindRecorderStop twoRecorders
  ∧ activeKeybindRecorderStop twoRecorders = Some 1.
Proof.
  destruct (recording_ignores_repeat_and_modifiers false twoRecorders 0 shiftKey)
    as (Hcalls & _ & _ & _ & Hslot & _).
  - apply twoRecorders_reachable.
  - exists (mkRow Mute true). split; vm_compute; reflexivity.
  - right. rewrite elem_of_MODIFIER_KEYS. by left.
  - split; [exact Hcalls|]. split; [exact Hslot|vm_compute; reflexivity].
Defined.

(** X20: a shortcut that was just recorded works.  In every state the
    plugin reaches, once a recording row has stored the descriptor of a
    key event, a key event with the same key, code and modifiers that
    reaches the dispatcher unhandled and outside text entry flips the
    fake flag of the row's channel, provided the slot held no other
    row's recorder; while it holds one, the dispatcher changes
    nothing. *)
Theorem recorded_shortcut_fires (onChangeOnWrite : bool) (env : Env) (st : State)
    (row : RowId) (r : Row) (event : KeyboardEvent) :
  programReachable onChangeOnWrite st →
  rows st !! row = Some r → isRecording r = true →
  event_repeat event = false →
  event_defaultPrevented event = false →
  event_key event ≠ "Escape" →
  event_key event ∉ MODIFIER_KEYS →
  shouldIgnoreKeybindTarget (event_target event) = false →
  let recorded := recorderStep (RowKeyDown row event) st in
  (activeKeybindRecorderStop st = Some row ∨ activeKeybindRecorderStop st = None →
   fakeFlag (rowAction r) (handleHotkeys onChangeOnWrite env event recorded)
     = negb (fakeFlag (rowAction r) st))
  ∧ (∀ other, activeKeybindRecorderStop st = Some other → other ≠ row →
     handleHotkeys onChangeOnWrite env event recorded = recorded).
Proof.
  intros Hreach Hrow Hrec Hrepeat Hprevented Hescape Hmodifier Htarget recorded.
  destruct r as [action recording]. cbn in Hrec. subst recording.
  apply programReachable_inv in Hreach as (Hpend & _).
  destruct (commit_transition_fields st row action event Hrow Hpend Hrepeat
              Hescape Hmodifier)
    as (Hhotkey & _ & HfM & HfD & _ & _ & _ & _ & Hflag & _).
  fold recorded in Hhotkey, HfM, HfD, Hflag. cbn [rowAction].
  split.
  - intros Hslot.
    assert (isRecordingKeybind recorded = false) as Hidle.
    { rewrite Hflag. destruct Hslot as [-> | ->].
      - by rewrite (bool_decide_eq_true_2 (Some row = Some row)).
      - done. }
    assert (hotkeysLive event recorded) as Hlive by done.
    rewrite (handleHotkeys_live _ _ _ _ Hlive). cbn zeta.
    pose proof (clickFake_spec Mute onChangeOnWrite env recorded) as (HsM & _).
    pose proof (clickFake_spec Deafen onChangeOnWrite env recorded) as (HsD & _).
    pose proof (clickFake_spec Deafen onChangeOnWrite env
                  (clickFakeMute onChangeOnWrite env recorded)) as (HsMD & _).
    cbn [clickFake fakeFlag withFakeFlag] in HsM, HsD, HsMD.
    destruct action; cbn [hotkeyOf] in Hhotkey; rewrite Hhotkey;
      rewrite matchesKeybind_self; cbn [orb fakeFlag].
    + destruct (matchesKeybind event (fakeDeafenHotkey (settings recorded)));
        cbn [settings emit]; rewrite ?HsMD, ?HsM; cbn; rewrite ?HsM; cbn;
        by rewrite HfM.
    + destruct (matchesKeybind event (fakeMuteHotkey (settings recorded)));
        cbn [orb settings emit]; rewrite ?HsMD, ?HsD; cbn; rewrite ?HsM; cbn;
        by rewrite HfD.
  - intros other Hslot Hne.
    assert (isRecordingKeybind recorded = true) as Hbusy.
    { rewrite Hflag, Hslot.
      rewrite (bool_decide_eq_false_2 (Some other = Some row)) by congruence.
      done. }
    unfold handleHotkeys. rewrite Hbusy. by rewrite !orb_true_r.
Qed.

Lemma recorded_shortcut_fires_witness :
  fakeFlag Mute sampleSession = false
  ∧ fakeFlag Mute
      (handleHotkeys false sampleEnv ctrlK
         (recorderStep (RowKeyDown 0 ctrlK) sampleSession)) = true
  ∧ handleHotkeys false sampleEnv ctrlK
      (recorderStep (RowKeyDown 0 ctrlK) twoRecorders)
    = recorderStep (RowKeyDown 0 ctrlK) twoRecorders.
Proof.
  assert (event_key ctrlK ≠ "Escape") as Hescape by (vm_compute; discriminate).
  assert (event_key ctrlK ∉ MODIFIER_KEYS) as Hmodifier.
  { rewrite elem_of_MODIFIER_KEYS. vm_compute. intuition discriminate. }
  split; [vm_compute; reflexivity|]. split.
  - destruct (recorded_shortcut_fires false sampleEnv sampleSession 0
                (mkRow Mute true) ctrlK
                (orderlyReachable_programReachable _ _ sampleSession_orderly)
                eq_refl eq_refl eq_refl eq_refl Hescape Hmodifier eq_refl)
      as (Hfires & _).
    apply Hfires. left. vm_compute. reflexivity.
  - destruct (recorded_shortcut_fires false sampleEnv twoRecorders 0
                (mkRow Mute true) ctrlK twoRecorders_reachable
                eq_refl eq_refl eq_refl eq_refl Hescape Hmodifier eq_refl)
      as (_ & Hquiet).
    apply (Hquiet 1); [vm_compute; reflexivity|lia].
Defined.

(** X21: in every state the plugin reaches, unmounting a row while it
    records runs the cleanup of its effect only: its key listener is
    removed and the row is gone, and the slot and the flag are left as
    they are.  If the slot named the row it still does: the flag stays
    set and the dispatcher ignores every key event, until an idle row
    starts recording, which calls the stale stop capability and takes
    the slot over. *)
Theorem unmount_while_recording_keeps_flag (onChangeOnWrite : bool) (st : State)
    (row : RowId) :
  programReachable onChangeOnWrite st → rowRecording st row →
  let st' := recorderStep (Unmount row) st in
  callsDuring st st' = [CallRemoveEventListener (HandleKeyDown row)]
  ∧ rows st' !! row = None
  ∧ activeKeybindRecorderStop st' = activeKeybindRecorderStop st
  ∧ isRecordingKeybind st' = isRecordingKeybind st
  ∧ (activeKeybindRecorderStop st = Some row →
     isRecordingKeybind st' = true
     ∧ (∀ notifying env event, handleHotkeys notifying env event st' = st')
     ∧ ∀ row' action', rows st' !! row' = Some (mkRow action' false) →
         let st'' := recorderStep (ClickRecord row') st' in
         callsDuring st' st'' =
           [CallStopRecording row; CallAddEventListener (HandleKeyDown row')]
         ∧ activeKeybindRecorderStop st'' = Some row'
         ∧ rowRecording st'' row').
Proof.
  intros Hreach ([action recording] & Hrow & Hrec) st'. cbn in Hrec. subst recording.
  apply programReachable_inv in Hreach as (Hpend & Hflag & _).
  assert (st' = set_rows (delete row (rows st)) (keybindRowCleanup row st)) as ->.
  { subst st'. unfold recorderStep, unmountRow. rewrite Hrow. cbn [isRecording].
    by rewrite flushRenders_nil. }
  split; [by apply callsDuring_app|]. split; [apply lookup_delete_eq|].
  split; [done|]. split; [done|].
  intros Hactive. rewrite Hactive in Hflag.
  rewrite bool_decide_eq_true_2 in Hflag by done.
  split; [done|]. split.
  { intros o env event. unfold handleHotkeys. cbn. rewrite Hflag.
    by rewrite !orb_true_r. }
  intros row' action' Hrow' st''. subst st''.
  cbn in Hrow'. apply lookup_delete_Some in Hrow' as [Hne Hrow'].
  unfold recorderStep, NESTED_UPDATE_LIMIT, clickRecord. cbn [rows set_rows].
  rewrite lookup_delete_ne, Hrow' by done. cbn [isRecording negb].
  rewrite (start_transition_stale 49 _ row' row action'); try done.
  - split; [|split; [done|]].
    + apply callsDuring_app. cbn. by rewrite <- app_assoc.
    + exists (mkRow action' true). cbn. by rewrite lookup_insert_eq.
  - cbn. by rewrite lookup_delete_ne.
  - intros r. cbn. by rewrite lookup_delete_eq.
Qed.

Lemma unmount_while_recording_keeps_flag_witness :
  (isRecordingKeybind (recorderStep (Unmount 0) sampleSession) = true
   ∧ callsDuring (recorderStep (Unmount 0) sampleSession)
       (recorderStep (ClickRecord 1) (recorderStep (Unmount 0) sampleSession))
     = [CallStopRecording 0; CallAddEventListener (HandleKeyDown 1)])
  ∧ activeKeybindRecorderStop (recorderStep (Unmount 0) twoRecorders)
    = activeKeybindRecorderStop twoRecorders.
Proof.
  split.
  - destruct (unmount_while_recording_keeps_flag false sampleSession 0)
      as (_ & _ & _ & _ & Hnamed).
    { apply orderlyReachable_programReachable, sampleSession_orderly. }
    { exists (mkRow Mute true). split; vm_compute; reflexivity. }
    destruct Hnamed as (Hflag & _ & Hnext); [vm_compute; reflexivity|].
    split; [exact Hflag|].
    destruct (Hnext 1 Deafen) as (Hcalls & _); [vm_compute; reflexivity|].
    exact Hcalls.
  - destruct (unmount_while_recording_keeps_flag false twoRecorders 0)
      as (_ & _ & Hslot & _).
    { apply twoRecorders_reachable. }
    { exists (mkRow Mute true). split; vm_compute; reflexivity. }
    exact Hslot.
Defined.
